(** * Revenue calculator: the projection effect of [RevenueCalculator]

    Shallow embedding of [src/components/revenuecalculator.js].

    The component keeps five pieces of React state (three inputs, the
    chart series and the annual projection) and one effect that recomputes
    the two derived pieces from the three inputs.  The effect body is
    written once, over an abstract arithmetic [JsArith]; it is then read
    at two instances:

    - [F64]: IEEE 754 binary64, the arithmetic of a JavaScript [Number],
      through the executable specification [SpecFloat] of the Standard
      Library ([prec = 53], [emax = 1024], round to nearest, ties to even);
    - [Exact]: exact rational arithmetic, the "real number" reading of the
      formulas, used only to state what they are before rounding.

    Statements about what the code computes are made at [F64].  The facts
    about rounding they need are derived from the definitions of
    [SpecFloat] in the second half of the file. *)

From Stdlib Require Import ZArith Bool List Lia QArith.
From Stdlib Require Import SpecFloat.
From Stdlib Require String.
Import ListNotations.
Import String.StringSyntax.
Delimit Scope string_scope with string.

Set Implicit Arguments.

(** ** Arithmetic of the source language *)

(** The operators the component applies to numbers: [+ - * /], the
    comparison [<=], and numeric literals (integers, and decimals such as
    [0.75], given as a fraction of two integers). *)
Class JsArith (num : Type) : Type := {
  num_add : num -> num -> num;
  num_sub : num -> num -> num;
  num_mul : num -> num -> num;
  num_div : num -> num -> num;
  num_leb : num -> num -> bool;
  num_int : Z -> num;
  num_dec : Z -> positive -> num
}.

Declare Scope js_scope.
Delimit Scope js_scope with js.
Infix "+" := num_add : js_scope.
Infix "-" := num_sub : js_scope.
Infix "*" := num_mul : js_scope.
Infix "/" := num_div : js_scope.
Infix "<=?" := num_leb : js_scope.
Notation "# n" := (num_int n) (at level 1, format "# n") : js_scope.

(** ** The component *)

Section Component.
Context {num : Type} `{JsArith num}.

Local Open Scope js_scope.

(** The object held by [annualProjection]. *)
Record projection : Type := Projection {
  rawValue : num;
  afterNovelty : num;
  lowerRange : num;
  upperRange : num
}.

(** One element of [chartData]. *)
Record sample : Type := Sample {
  month : num;
  efficacy : num;
  projectedValue : num
}.

(** The [useState] cells of the component. *)
Record state : Type := State {
  experimentDays : num;
  controlRevenue : num;
  variantRevenue : num;
  chartData : list sample;
  annualProjection : projection
}.

(** Initial values of the [useState] cells (lines 6-15). *)
Definition initialState : state :=
  {| experimentDays := #14;
     controlRevenue := #1000;
     variantRevenue := #1200;
     chartData := [];
     annualProjection :=
       {| rawValue := #0; afterNovelty := #0;
          lowerRange := #0; upperRange := #0 |} |}.

(** Line 48-49: the decay formula, for the loop counter [m]. *)
Definition efficacyPercentage (m : num) : num :=
  let progress := m / #12 in
  #100 - (#25 * (progress * progress * progress + progress) / #2).

(** Line 52. *)
Definition monthlyValue (rawAnnualValue efficacy : num) : num :=
  rawAnnualValue / #12 * (efficacy / #100).

(** The object pushed at lines 54-58. *)
Definition chartPoint (rawAnnualValue m : num) : sample :=
  let efficacyPercentage := efficacyPercentage m in
  {| month := m;
     efficacy := efficacyPercentage;
     projectedValue := monthlyValue rawAnnualValue efficacyPercentage |}.

(** Lines 45-59: [for (let month = 0; month <= 12; month++)].  The
    counter is a number of the source language, so the loop is bounded
    by [fuel]; [None] means the fuel ran out before the test failed. *)
Fixpoint chartLoop (fuel : nat) (rawAnnualValue m : num)
    (data : list sample) : option (list sample) :=
  match fuel with
  | O => None
  | S fuel' =>
      if m <=? #12
      then chartLoop fuel' rawAnnualValue (m + #1)
             (data ++ [chartPoint rawAnnualValue m])
      else Some data
  end.

(** Lines 23-40: the object handed to [setAnnualProjection]. *)
Definition computeProjection (experimentDays controlRevenue variantRevenue : num)
    : projection :=
  let dailyRevenueDifference := variantRevenue - controlRevenue in
  let rawAnnualValue := (dailyRevenueDifference / experimentDays) * #365 in
  let afterNoveltyEffect := rawAnnualValue * num_dec 75 100 in
  let lowerRange := afterNoveltyEffect * num_dec 7 10 in
  let upperRange := afterNoveltyEffect in
  {| rawValue := rawAnnualValue;
     afterNovelty := afterNoveltyEffect;
     lowerRange := lowerRange;
     upperRange := upperRange |}.

(** Lines 19-62: the body of the effect, as a state transformer.  With
    [experimentDays <= 0] it returns before any setter is called. *)
Definition projectionEffect (fuel : nat) (s : state) : option state :=
  if experimentDays s <=? #0 then Some s
  else
    let p := computeProjection
               (experimentDays s) (controlRevenue s) (variantRevenue s) in
    match chartLoop fuel (rawValue p) #0 [] with
    | None => None
    | Some data =>
        Some {| experimentDays := experimentDays s;
                controlRevenue := controlRevenue s;
                variantRevenue := variantRevenue s;
                chartData := data;
                annualProjection := p |}
    end.

(** Line 146: the number rendered as "Daily Revenue Increase". *)
Definition dailyRevenueIncrease (s : state) : num :=
  (variantRevenue s - controlRevenue s) / experimentDays s.

(** Line 147: the number on which [toFixed(2)] is called for
    "Experiment Lift". *)
Definition experimentLift (s : state) : num :=
  (variantRevenue s / controlRevenue s - #1) * #100.

(** The counter values the loop visits; it does not depend on
    [rawAnnualValue]. *)
Fixpoint loopMonths (fuel : nat) (m : num) : option (list num) :=
  match fuel with
  | O => None
  | S fuel' =>
      if m <=? #12
      then option_map (cons m) (loopMonths fuel' (m + #1))
      else Some []
  end.

End Component.

Arguments projection : clear implicits.
Arguments sample : clear implicits.
Arguments state : clear implicits.

(** ** Binary64 arithmetic *)

Module F64.

Definition prec : Z := 53.
Definition emax : Z := 1024.

Definition float : Type := spec_float.

(** An integer literal; exact for every integer below [2^53] in
    magnitude. *)
Definition of_Z (n : Z) : float := binary_normalize prec emax n 0 false.

(** A decimal literal [n / d] with [n] and [d] exactly representable:
    the correctly rounded quotient is the double nearest to the
    decimal. *)
Definition of_dec (n : Z) (d : positive) : float :=
  SFdiv prec emax (of_Z n) (of_Z (Zpos d)).

#[global] Instance arith : JsArith float := {|
  num_add := SFadd prec emax;
  num_sub := SFsub prec emax;
  num_mul := SFmul prec emax;
  num_div := SFdiv prec emax;
  num_leb := SFleb;
  num_int := of_Z;
  num_dec := of_dec
|}.

(** The comparison [<] of the source language. *)
Definition ltb (x y : float) : bool := SFltb x y.

(** A double is well formed when its mantissa and exponent are in
    canonical form. *)
Definition valid (x : float) : bool := valid_binary prec emax x.

(** Neither NaN nor an infinity: the "real numbers" of the spec. *)
Definition is_real (x : float) : bool :=
  match x with
  | S754_zero _ | S754_finite _ _ _ => true
  | S754_infinity _ | S754_nan => false
  end.

Definition is_nan (x : float) : bool :=
  match x with S754_nan => true | _ => false end.

Definition is_infinite (x : float) : bool :=
  match x with S754_infinity _ => true | _ => false end.

End F64.


(** ** Exact arithmetic *)

(** The formulas read over the rationals.  Division by zero is not
    modelled here ([Qdiv] returns 0): this instance is only used where the
    divisor is known to be non-zero. *)
Module Exact.

#[global] Instance arith : JsArith Q := {|
  num_add := Qplus;
  num_sub := Qminus;
  num_mul := Qmult;
  num_div := Qdiv;
  num_leb := Qle_bool;
  num_int := inject_Z;
  num_dec := Qmake
|}.

End Exact.

(** ** Inputs and outputs used in the statements *)

Local Open Scope js_scope.

(** The counter values [0, 1, ..., 12] as doubles. *)
Definition monthIndices : list F64.float :=
  map (fun k => F64.of_Z (Z.of_nat k)) (seq 0 13).

(** A state holding the three inputs, with the derived cells as they are
    before the effect has ever run. *)
Definition inputState {num : Type} `{JsArith num}
    (days control variant : num) : state num :=
  {| experimentDays := days;
     controlRevenue := control;
     variantRevenue := variant;
     chartData := chartData initialState;
     annualProjection := annualProjection initialState |}.

(** What both setters leave behind when the effect runs to its end. *)
Definition recomputed (s : state F64.float) : state F64.float :=
  let p := computeProjection
             (experimentDays s) (controlRevenue s) (variantRevenue s) in
  {| experimentDays := experimentDays s;
     controlRevenue := controlRevenue s;
     variantRevenue := variantRevenue s;
     chartData := map (chartPoint (rawValue p)) monthIndices;
     annualProjection := p |}.

(** ** The input handlers and the render cycle *)

(** [Math.max] of two numbers, as ECMAScript defines it: [NaN] as soon as
    one argument is [NaN]; otherwise the second argument when it is
    greater than the first, and the first one if not, except that [+0]
    replaces [-0]. *)
Definition math_max (x y : F64.float) : F64.float :=
  if F64.is_nan x || F64.is_nan y then S754_nan
  else if SFltb x y then y
  else match x, y with
       | S754_zero true, S754_zero false => y
       | _, _ => x
       end.

(** The three [<input type="number">] fields. *)
Inductive input : Type := DaysInput | ControlInput | VariantInput.

(** Lines 106, 118 and 130: the [onChange] handlers.  [typed] is the
    number [Number(e.target.value)]; the handler stores
    [Math.max(1, typed)] for the duration and [Math.max(0, typed)] for a
    revenue. *)
Definition onChange (i : input) (typed : F64.float) (s : state F64.float)
    : state F64.float :=
  match i with
  | DaysInput =>
      {| experimentDays := math_max #1 typed;
         controlRevenue := controlRevenue s;
         variantRevenue := variantRevenue s;
         chartData := chartData s;
         annualProjection := annualProjection s |}
  | ControlInput =>
      {| experimentDays := experimentDays s;
         controlRevenue := math_max #0 typed;
         variantRevenue := variantRevenue s;
         chartData := chartData s;
         annualProjection := annualProjection s |}
  | VariantInput =>
      {| experimentDays := experimentDays s;
         controlRevenue := controlRevenue s;
         variantRevenue := math_max #0 typed;
         chartData := chartData s;
         annualProjection := annualProjection s |}
  end.

(** [Object.is] on numbers: the same double, [NaN] being the same as
    [NaN] and [+0] differing from [-0]. *)
Definition sameValue (x y : F64.float) : bool :=
  match x, y with
  | S754_zero a, S754_zero b => Bool.eqb a b
  | S754_infinity a, S754_infinity b => Bool.eqb a b
  | S754_nan, S754_nan => true
  | S754_finite a m e, S754_finite b m' e' =>
      Bool.eqb a b && Pos.eqb m m' && Z.eqb e e'
  | _, _ => false
  end.

(** Line 62: the dependency array of the effect. *)
Definition depsChanged (old new : state F64.float) : bool :=
  negb (sameValue (experimentDays old) (experimentDays new) &&
        sameValue (controlRevenue old) (controlRevenue new) &&
        sameValue (variantRevenue old) (variantRevenue new)).

(** One user edit: the handler stores the clamped number; when that
    changes a dependency the component renders again and the effect
    runs, and when it does not the state is kept as it is. *)
Definition afterChange (fuel : nat) (i : input) (typed : F64.float)
    (s : state F64.float) : option (state F64.float) :=
  let s' := onChange i typed s in
  if depsChanged s s' then projectionEffect fuel s' else Some s.

(** The first render, after which the effect always runs. *)
Definition mount (fuel : nat) : option (state F64.float) :=
  projectionEffect fuel initialState.

Fixpoint edits (fuel : nat) (es : list (input * F64.float))
    (s : state F64.float) : option (state F64.float) :=
  match es with
  | [] => Some s
  | (i, typed) :: es' =>
      match afterChange fuel i typed s with
      | Some s' => edits fuel es' s'
      | None => None
      end
  end.

(** The state of the component after it is mounted and the user has made
    the edits [es], in that order. *)
Definition session (fuel : nat) (es : list (input * F64.float))
    : option (state F64.float) :=
  match mount fuel with
  | Some s => edits fuel es s
  | None => None
  end.

(** What holds of every state the component goes through: the derived
    cells are those of the inputs, the duration is at least 1 or [NaN],
    and no revenue is below zero. *)
Definition settled (s : state F64.float) : Prop :=
  s = recomputed s /\
  (SFleb #1 (experimentDays s) = true \/ experimentDays s = S754_nan) /\
  SFltb (controlRevenue s) #0 = false /\
  SFltb (variantRevenue s) #0 = false.

(** ** The month axis *)

(** What a tick of the month axis shows: a text or the number itself. *)
Inductive tick : Type :=
| TickText (label : String.string)
| TickNumber (value : F64.float).

(** Line 168: [value === 0 ? 'Start' : value === 12 ? 'Year End' : value]. *)
Definition tickFormatter (value : F64.float) : tick :=
  if SFeqb value #0 then TickText "Start"%string
  else if SFeqb value #12 then TickText "Year End"%string
  else TickNumber value.

(** ** Rounding of binary64, as [SpecFloat] performs it *)

Unset Implicit Arguments.
Local Close Scope js_scope.
Local Open Scope Z_scope.

Local Notation fexp := (SpecFloat.fexp F64.prec F64.emax).

(** [rounds_to sx e hi x]: [x] is the zero of sign [sx], or it is made of
    a canonical mantissa and exponent [(m', e')] with [e <= e' <= e + 1] and
    [m' * 2^(e' - e) <= hi], turned into an infinity when [e'] is too
    large. *)
Inductive rounds_to (sx : bool) (e hi : Z) : spec_float -> Prop :=
| rounds_zero : rounds_to sx e hi (S754_zero sx)
| rounds_fin (m' : positive) (e' : Z) :
    fexp (Zdigits2 (Z.pos m') + e') = e' ->
    e <= e' <= e + 1 ->
    Z.pos m' * 2 ^ (e' - e) <= hi ->
    rounds_to sx e hi
      (if e' <=? F64.emax - F64.prec then S754_finite sx m' e'
       else S754_infinity sx).

(** [rounded sx elo x]: [x] is a zero or an infinity of sign [sx], or a
    well-formed finite double of sign [sx] with exponent at least [elo]. *)
Inductive rounded (sx : bool) (elo : Z) : spec_float -> Prop :=
| rounded_zero : rounded sx elo (S754_zero sx)
| rounded_inf : rounded sx elo (S754_infinity sx)
| rounded_fin (m : positive) (e : Z) :
    bounded F64.prec F64.emax m e = true -> elo <= e ->
    rounded sx elo (S754_finite sx m e).

(** The last step of [binary_round_aux]: from the shifted mantissa and
    its exponent to a double. *)
Definition pack (sx : bool) (res : shr_record * Z) : spec_float :=
  let '(mrs, e) := res in
  match shr_m mrs with
  | Z0 => S754_zero sx
  | Zpos m => if e <=? F64.emax - F64.prec then S754_finite sx m e
              else S754_infinity sx
  | Zneg _ => S754_nan
  end.

(** The next binade: same sign and mantissa, exponent plus one. *)
Definition double_exp (x : spec_float) : spec_float :=
  match x with
  | S754_finite s m e =>
      if e + 1 <=? F64.emax - F64.prec then S754_finite s m (e + 1)
      else S754_infinity s
  | _ => x
  end.

(** A zero, the infinity of sign [sx], or a well-formed finite double of
    sign [sx]. *)
Definition signed (sx : bool) (x : spec_float) : Prop :=
  match x with
  | S754_zero _ => True
  | S754_infinity s => s = sx
  | S754_nan => False
  | S754_finite s m e => s = sx /\ bounded F64.prec F64.emax m e = true
  end.

(** The literals [0.7] and [2]. *)
Definition seven_tenths : spec_float := F64.of_dec 7 10.

Definition two : spec_float := F64.of_Z 2.

(** [normal sx elo x]: [x] is the infinity of sign [sx], or a well-formed
    finite double of sign [sx] with a full mantissa of 53 bits (a normal
    double) and exponent at least [elo]. *)
Inductive normal (sx : bool) (elo : Z) : spec_float -> Prop :=
| normal_inf : normal sx elo (S754_infinity sx)
| normal_fin (m : positive) (e : Z) :
    bounded F64.prec F64.emax m e = true ->
    Zdigits2 (Z.pos m) = 53 -> elo <= e ->
    normal sx elo (S754_finite sx m e).

Definition is_zero (x : spec_float) : bool :=
  match x with S754_zero _ => true | _ => false end.

(** [normal_quotient x d]: the quotient of the finite doubles [x] and
    [d], before it is rounded, has magnitude at least [2^-1022], the
    least normal double.  With [x = mx * 2^ex] and [d = md * 2^ed] in
    magnitude, this is [md * 2^(ed - 1022) <= mx * 2^ex]; both sides are
    scaled by [2^-e0], with [e0] the smaller of the two exponents, so
    that the test is one on integers. *)
Definition normal_quotient (x d : spec_float) : bool :=
  match x, d with
  | S754_finite _ mx ex, S754_finite _ md ed =>
      let e0 := Z.min ex (ed - 1022) in
      Z.pos md * 2 ^ (ed - 1022 - e0) <=? Z.pos mx * 2 ^ (ex - e0)
  | _, _ => false
  end.

Set Implicit Arguments.
Local Open Scope js_scope.

(** * Properties *)

(** ** The loop *)

Section LoopFacts.
Context {num : Type} `{JsArith num}.

Lemma chartLoop_months (fuel : nat) (raw m : num) (data : list (sample num)) :
  chartLoop fuel raw m data =
  option_map (fun ms => data ++ map (chartPoint raw) ms) (loopMonths fuel m).
Proof.
  revert m data. induction fuel as [|fuel IH]; intros m data; simpl.
  - reflexivity.
  - destruct (m <=? #12).
    + rewrite IH. destruct (loopMonths fuel (m + #1)) as [ms|]; simpl.
      * now rewrite <- app_assoc.
      * reflexivity.
    + simpl. now rewrite app_nil_r.
Qed.

Lemma loopMonths_more_fuel (fuel : nat) :
  forall (m : num) (ms : list num),
    loopMonths fuel m = Some ms ->
    forall fuel', (fuel <= fuel')%nat -> loopMonths fuel' m = Some ms.
Proof.
  induction fuel as [|fuel IH]; intros m ms Hm fuel' Hle; simpl in Hm.
  - discriminate.
  - destruct fuel' as [|fuel']; [lia|]. simpl.
    destruct (m <=? #12); [|exact Hm].
    destruct (loopMonths fuel (m + #1)) as [ms'|] eqn:E; [|discriminate].
    rewrite (IH _ _ E fuel') by lia. exact Hm.
Qed.

End LoopFacts.

Lemma loopMonths_f64 (fuel : nat) :
  (14 <= fuel)%nat -> loopMonths fuel (#0 : F64.float) = Some monthIndices.
Proof.
  intros Hfuel. apply (@loopMonths_more_fuel _ _ 14); [|exact Hfuel].
  vm_compute. reflexivity.
Qed.

Lemma chartLoop_f64 (fuel : nat) (raw : F64.float) :
  (14 <= fuel)%nat ->
  chartLoop fuel raw #0 [] = Some (map (chartPoint raw) monthIndices).
Proof.
  intros Hfuel. rewrite chartLoop_months, (loopMonths_f64 Hfuel). reflexivity.
Qed.

(** [0 < d] excludes [d <= 0]; only a comparison with zero, so no
    assumption on the form of [d] is needed. *)
Lemma positive_not_le_zero (d : F64.float) :
  F64.ltb #0 d = true -> (d <=? #0) = false.
Proof.
  destruct d as [s|s| |s m e]; try destruct s; vm_compute; congruence.
Qed.

Lemma projectionEffect_runs (fuel : nat) (s : state F64.float) :
  (experimentDays s <=? #0) = false -> (14 <= fuel)%nat ->
  projectionEffect fuel s = Some (recomputed s).
Proof.
  intros Hd Hfuel. unfold projectionEffect. rewrite Hd.
  cbv zeta. rewrite (chartLoop_f64 _ Hfuel). reflexivity.
Qed.

(** ** The annual projection *)

(** C1.  For every input with [experimentDays > 0] the effect runs to its
    end (with fuel for the fourteen loop tests) and leaves the figures
    that make up the projection result related exactly as the spec lists
    them: the daily lift rendered at line 146 is
    [(variantRevenue - controlRevenue) / experimentDays]; [rawValue] is
    that times 365; [afterNovelty] is [rawValue * 0.75]; [lowerRange] is
    [afterNovelty * 0.7]; [upperRange] is [afterNovelty].  All operations
    are the binary64 ones, each value computed from the earlier ones. *)
Theorem projection_fields (fuel : nat) (s : state F64.float) :
  F64.ltb #0 (experimentDays s) = true -> (14 <= fuel)%nat ->
  exists s',
    projectionEffect fuel s = Some s' /\
    experimentDays s' = experimentDays s /\
    controlRevenue s' = controlRevenue s /\
    variantRevenue s' = variantRevenue s /\
    let p := annualProjection s' in
    dailyRevenueIncrease s' =
      (variantRevenue s - controlRevenue s) / experimentDays s /\
    rawValue p = dailyRevenueIncrease s' * #365 /\
    afterNovelty p = rawValue p * F64.of_dec 75 100 /\
    lowerRange p = afterNovelty p * F64.of_dec 7 10 /\
    upperRange p = afterNovelty p.
Proof.
  intros Hd Hfuel. exists (recomputed s).
  split; [apply projectionEffect_runs; auto using positive_not_le_zero|].
  repeat split.
Qed.

(** The default inputs of the component: 14 days, 1000 and 1200. *)
Lemma projection_fields_witness :
  exists s',
    projectionEffect 14 (initialState (num := F64.float)) = Some s' /\
    rawValue (annualProjection s') = S754_finite false 5733167773403429 (-40) /\
    afterNovelty (annualProjection s') = S754_finite false 8599751660105144 (-41) /\
    lowerRange (annualProjection s') = S754_finite false 6019826162073600 (-41) /\
    upperRange (annualProjection s') = S754_finite false 8599751660105144 (-41).
Proof.
  destruct (@projection_fields 14 initialState) as (s' & Hrun & _);
    [vm_compute; reflexivity | lia |].
  exists s'. split; [exact Hrun|].
  vm_compute in Hrun. injection Hrun as <-. repeat split.
Defined.

(** C4.  With [experimentDays <= 0] the effect returns at line 20: the
    state, and with it the held [annualProjection] and [chartData], is
    what it was, whatever it was (the initial cells included); no fuel is
    needed because the loop is not entered, and the run does not fail. *)
Theorem nonpositive_duration_skips {num : Type} `{JsArith num}
    (fuel : nat) (s : state num) :
  (experimentDays s <=? #0) = true ->
  projectionEffect fuel s = Some s /\
  (forall s', projectionEffect fuel s = Some s' ->
     annualProjection s' = annualProjection s /\ chartData s' = chartData s).
Proof.
  intros Hd. unfold projectionEffect. rewrite Hd. split; [reflexivity|].
  intros s' [= <-]. split; reflexivity.
Qed.

(** Duration -3 on top of the initial cells, and no fuel at all. *)
Lemma nonpositive_duration_skips_witness :
  let s := inputState (F64.of_Z (-3)) (F64.of_Z 1000) (F64.of_Z 1200) in
  projectionEffect 0 s = Some s /\
  chartData s = [] /\
  annualProjection s = annualProjection initialState.
Proof.
  intros s.
  destruct (@nonpositive_duration_skips _ _ 0 s) as [Hrun _];
    [vm_compute; reflexivity|].
  split; [exact Hrun|]. split; reflexivity.
Defined.

(** ** The monthly series *)

Lemma series_nth (raw : F64.float) (k : nat) :
  (k <= 12)%nat ->
  nth_error (map (chartPoint raw) monthIndices) k =
  Some (chartPoint raw (F64.of_Z (Z.of_nat k))).
Proof.
  intros Hk. rewrite nth_error_map.
  replace (nth_error monthIndices k) with (Some (F64.of_Z (Z.of_nat k)));
    [reflexivity|].
  do 13 (destruct k as [|k]; [reflexivity|]). lia.
Qed.

Lemma efficacy_in_range (k : nat) :
  (k <= 12)%nat ->
  let e := efficacyPercentage (F64.of_Z (Z.of_nat k)) in
  (#75 <=? e) = true /\ (e <=? #100) = true.
Proof.
  intros Hk.
  do 13 (destruct k as [|k]; [vm_compute; split; reflexivity|]). lia.
Qed.

Lemma efficacy_step_down (k : nat) :
  (k <= 11)%nat ->
  (efficacyPercentage (F64.of_Z (Z.of_nat (S k))) <=?
   efficacyPercentage (F64.of_Z (Z.of_nat k))) = true.
Proof.
  intros Hk.
  do 12 (destruct k as [|k]; [vm_compute; reflexivity|]). lia.
Qed.

(** The decay formula over the rationals, with the cube as a power. *)
Lemma efficacy_exact_formula (k : Z) :
  let progress := (inject_Z k / 12)%Q in
  (efficacyPercentage (inject_Z k) ==
   100 - 25 * (progress ^ 3 + progress) / 2)%Q.
Proof.
  unfold efficacyPercentage. simpl. field.
Qed.

(** C5.  Every entry [k = 0..12] of the series carries the counter [k]
    and the efficacy [100 - 25 * (progress^3 + progress) / 2] with
    [progress = k / 12], the cube being [progress * progress * progress]
    as at line 49 (over the rationals that is the third power); each of
    the thirteen doubles lies between 75 and 100. *)
Theorem efficacy_formula_and_range (fuel : nat) (raw : F64.float) :
  (14 <= fuel)%nat ->
  exists data,
    chartLoop fuel raw #0 [] = Some data /\
    forall k, (k <= 12)%nat ->
      exists smp,
        nth_error data k = Some smp /\
        month smp = F64.of_Z (Z.of_nat k) /\
        (let progress := month smp / #12 in
         efficacy smp =
           #100 - (#25 * (progress * progress * progress + progress) / #2)) /\
        (#75 <=? efficacy smp) = true /\
        (efficacy smp <=? #100) = true /\
        (let progress := (inject_Z (Z.of_nat k) / 12)%Q in
         efficacyPercentage (inject_Z (Z.of_nat k)) ==
           100 - 25 * (progress ^ 3 + progress) / 2)%Q.
Proof.
  intros Hfuel. eexists. split; [apply chartLoop_f64, Hfuel|].
  intros k Hk. eexists. split; [apply series_nth, Hk|].
  split; [reflexivity|]. split; [reflexivity|].
  destruct (efficacy_in_range Hk) as [Hlo Hhi].
  split; [exact Hlo|]. split; [exact Hhi|]. apply efficacy_exact_formula.
Qed.

(** Month 6 of the series for a raw annual value of 1200. *)
Lemma efficacy_formula_and_range_witness :
  exists data smp,
    chartLoop 14 (F64.of_Z 1200) #0 [] = Some data /\
    nth_error data 6 = Some smp /\
    efficacy smp = S754_finite false 6487118603878400 (-46).
Proof.
  destruct (@efficacy_formula_and_range 14 (F64.of_Z 1200)) as (data & Hrun & Hall);
    [lia|].
  destruct (Hall 6%nat) as (smp & Hnth & Hm & Hform & _); [lia|].
  exists data, smp. split; [exact Hrun|]. split; [exact Hnth|].
  rewrite Hform, Hm. vm_compute. reflexivity.
Defined.

(** C6.  Whatever the raw annual value, the first entry of the series has
    efficacy exactly the double 100 and the last one exactly the double
    75: equality of representations, not closeness. *)
Theorem efficacy_endpoints (fuel : nat) (raw : F64.float) :
  (14 <= fuel)%nat ->
  exists data,
    chartLoop fuel raw #0 [] = Some data /\
    option_map efficacy (nth_error data 0) = Some (F64.of_Z 100) /\
    option_map efficacy (nth_error data 12) = Some (F64.of_Z 75).
Proof.
  intros Hfuel. eexists. split; [apply chartLoop_f64, Hfuel|].
  rewrite !series_nth by lia. split; vm_compute; reflexivity.
Qed.

Lemma efficacy_endpoints_witness :
  exists data,
    chartLoop 14 (F64.of_Z (-5214)) #0 [] = Some data /\
    option_map efficacy (nth_error data 0) = Some (F64.of_Z 100) /\
    option_map efficacy (nth_error data 12) = Some (F64.of_Z 75).
Proof.
  apply (@efficacy_endpoints 14 (F64.of_Z (-5214))). lia.
Defined.

(** C7.  Along the thirteen entries the efficacy never increases: entry
    [k + 1] is at most entry [k], for [k = 0..11]. *)
Theorem efficacy_non_increasing (fuel : nat) (raw : F64.float) :
  (14 <= fuel)%nat ->
  exists data,
    chartLoop fuel raw #0 [] = Some data /\
    forall k, (k <= 11)%nat ->
      exists a b,
        nth_error data k = Some a /\
        nth_error data (S k) = Some b /\
        (efficacy b <=? efficacy a) = true.
Proof.
  intros Hfuel. eexists. split; [apply chartLoop_f64, Hfuel|].
  intros k Hk. eexists. eexists.
  split; [apply series_nth; lia|]. split; [apply series_nth; lia|].
  apply efficacy_step_down, Hk.
Qed.

Lemma efficacy_non_increasing_witness :
  exists data a b,
    chartLoop 14 (F64.of_Z 5214) #0 [] = Some data /\
    nth_error data 11 = Some a /\ nth_error data 12 = Some b /\
    (efficacy b <=? efficacy a) = true.
Proof.
  destruct (@efficacy_non_increasing 14 (F64.of_Z 5214)) as (data & Hrun & Hall);
    [lia|].
  destruct (Hall 11%nat) as (a & b & Ha & Hb & Hle); [lia|].
  exists data, a, b. auto.
Defined.

(** C8.  For every raw annual value, of any sign or size, the loop ends
    with exactly thirteen entries whose counters are 0, 1, ..., 12 in
    that order; each projected value is
    [(rawAnnualValue / 12) * (efficacy / 100)]; when the raw value is a
    zero every projected value is that zero; and the efficacy column is
    the same whatever the raw value is. *)
Theorem series_shape (fuel : nat) (raw : F64.float) :
  (14 <= fuel)%nat ->
  exists data,
    chartLoop fuel raw #0 [] = Some data /\
    length data = 13%nat /\
    map month data = map (fun k => F64.of_Z (Z.of_nat k)) (seq 0 13) /\
    (forall smp, In smp data ->
       projectedValue smp = raw / #12 * (efficacy smp / #100)) /\
    (forall sgn, raw = S754_zero sgn ->
       forall smp, In smp data -> projectedValue smp = S754_zero sgn) /\
    (forall raw', exists data',
       chartLoop fuel raw' #0 [] = Some data' /\
       map efficacy data' = map efficacy data).
Proof.
  intros Hfuel. eexists. split; [apply chartLoop_f64, Hfuel|].
  split; [reflexivity|]. split; [reflexivity|]. split; [|split].
  - intros smp Hin. apply in_map_iff in Hin as (m & <- & _). reflexivity.
  - intros sgn -> smp Hin. apply in_map_iff in Hin as (m & <- & Hm).
    vm_compute in Hm.
    repeat (destruct Hm as [<-|Hm]; [destruct sgn; vm_compute; reflexivity|]).
    destruct Hm.
  - intros raw'. eexists. split; [apply chartLoop_f64, Hfuel|].
    rewrite !map_map. reflexivity.
Qed.

(** The series of a zero raw annual value. *)
Lemma series_shape_witness :
  exists data,
    chartLoop 14 (F64.of_Z 0) #0 [] = Some data /\
    length data = 13%nat /\
    map projectedValue data = repeat (S754_zero false) 13.
Proof.
  destruct (@series_shape 14 (F64.of_Z 0)) as (data & Hrun & Hlen & _); [lia|].
  exists data. split; [exact Hrun|]. split; [exact Hlen|].
  vm_compute in Hrun. injection Hrun as <-. reflexivity.
Defined.

(** ** The skip and the full run *)

(** C10.  The early return is taken exactly when [experimentDays <= 0]
    evaluates to true, and then the state is left as it is.  In every
    other case, which includes every [experimentDays > 0], the effect
    runs to its end whatever the two revenues are: there is no
    hypothesis on them, so they may be negative, or the variant below
    the control.  Both derived cells are then replaced by values computed
    from the three inputs as they are: the four fields of the projection
    by the formulas of lines 23-33, and the series by thirteen samples,
    sample [k] holding the counter [k], the efficacy of line 49 for
    [progress = k / 12] and the projected value of line 52. *)
Theorem skip_only_for_nonpositive_duration (fuel : nat) (s : state F64.float) :
  (14 <= fuel)%nat ->
  let days := experimentDays s in
  let control := controlRevenue s in
  let variant := variantRevenue s in
  ((days <=? #0) = true -> projectionEffect fuel s = Some s) /\
  (F64.ltb #0 days = true -> (days <=? #0) = false) /\
  ((days <=? #0) = false ->
   exists s',
     projectionEffect fuel s = Some s' /\
     experimentDays s' = days /\
     controlRevenue s' = control /\
     variantRevenue s' = variant /\
     let raw := (variant - control) / days * #365 in
     rawValue (annualProjection s') = raw /\
     afterNovelty (annualProjection s') = raw * F64.of_dec 75 100 /\
     lowerRange (annualProjection s') =
       raw * F64.of_dec 75 100 * F64.of_dec 7 10 /\
     upperRange (annualProjection s') = raw * F64.of_dec 75 100 /\
     length (chartData s') = 13%nat /\
     forall k, (k <= 12)%nat ->
       exists smp,
         nth_error (chartData s') k = Some smp /\
         month smp = F64.of_Z (Z.of_nat k) /\
         (let progress := F64.of_Z (Z.of_nat k) / #12 in
          efficacy smp =
            #100 - (#25 * (progress * progress * progress + progress) / #2)) /\
         projectedValue smp = raw / #12 * (efficacy smp / #100)).
Proof.
  intros Hfuel days control variant. split; [|split].
  - intros Hd. unfold projectionEffect. fold days. now rewrite Hd.
  - apply positive_not_le_zero.
  - intros Hd. exists (recomputed s).
    split; [now apply projectionEffect_runs|].
    do 8 (split; [reflexivity|]).
    intros k Hk. eexists. split; [apply series_nth, Hk|].
    repeat split.
Qed.

(** One day, control revenue -50, variant revenue -80: a full run, with
    raw value -10950 and a last sample of -684.375. *)
Lemma skip_only_for_nonpositive_duration_witness :
  exists s',
    projectionEffect 14
      (inputState (F64.of_Z 1) (F64.of_Z (-50)) (F64.of_Z (-80))) = Some s' /\
    rawValue (annualProjection s') = F64.of_Z (-10950) /\
    option_map projectedValue (nth_error (chartData s') 12) =
      Some (S754_finite true 6019826162073600 (-43)).
Proof.
  destruct (@skip_only_for_nonpositive_duration 14
              (inputState (F64.of_Z 1) (F64.of_Z (-50)) (F64.of_Z (-80))))
    as (_ & Hpos & Hrun); [lia|].
  destruct Hrun as (s' & Hrun & _ & _ & _ & Hraw & _ & _ & _ & _ & Hser);
    [apply Hpos; vm_compute; reflexivity|].
  destruct (Hser 12%nat) as (smp & Hnth & _ & Heff & Hval); [lia|].
  exists s'. split; [exact Hrun|]. split.
  - rewrite Hraw. vm_compute. reflexivity.
  - rewrite Hnth. simpl. rewrite Hval, Heff. vm_compute. reflexivity.
Defined.

(** ** The lift percentage *)

(** C3.  The code does not do what the claim asks.  With a control
    revenue of zero the number handed to [toFixed] at line 147 is not a
    real number: it is [+Infinity] for the inputs 14, 0, 1200, it is
    [NaN] for the inputs 14, 0, 0, and it is an infinity or [NaN] for
    every duration and every variant revenue. *)
Theorem experimentLift_zero_control :
  experimentLift (inputState (F64.of_Z 14) (F64.of_Z 0) (F64.of_Z 1200))
    = S754_infinity false /\
  experimentLift (inputState (F64.of_Z 14) (F64.of_Z 0) (F64.of_Z 0))
    = S754_nan /\
  forall days variant sgn data p,
    let lift :=
      experimentLift
        {| experimentDays := days; controlRevenue := S754_zero sgn;
           variantRevenue := variant; chartData := data;
           annualProjection := p |} in
    F64.is_infinite lift || F64.is_nan lift = true.
Proof.
  split; [vm_compute; reflexivity|]. split; [vm_compute; reflexivity|].
  intros days variant sgn data p.
  destruct variant as [s|s| |s m e]; destruct sgn; try destruct s;
    vm_compute; reflexivity.
Qed.

(** ** Facts about binary64 rounding *)

(** [SpecFloat] rounds in two steps ([binary_round_aux]): the mantissa is
    shifted right until its exponent is the one of the format
    ([shr_fexp]), keeping a round bit and a sticky bit; it is rounded to
    nearest, ties to even; and it is shifted once more if rounding
    produced a carry.  The lemmas below follow these steps. *)

Unset Implicit Arguments.
Local Close Scope js_scope.

(** *** Digits and shifts *)

Lemma fexp64 (e : Z) : fexp e = Z.max (e - 53) (-1074).
Proof. reflexivity. Qed.

Lemma digits2_log2 (p : positive) : Zpos (digits2_pos p) = Z.log2 (Zpos p) + 1.
Proof.
  assert (Hsize : forall q, digits2_pos q = Pos.size q)
    by (induction q; simpl; congruence).
  rewrite Hsize. destruct p; simpl; lia.
Qed.

Lemma Zdigits2_log2 (m : Z) : 0 < m -> Zdigits2 m = Z.log2 m + 1.
Proof. destruct m; try lia. intros _. apply digits2_log2. Qed.

Lemma Zdigits2_nonneg (m : Z) : 0 <= Zdigits2 m.
Proof. destruct m; simpl; lia. Qed.

Lemma iter_pos_iter {A : Type} (f : A -> A) (p : positive) (x : A) :
  iter_pos f p x = Pos.iter f x p.
Proof.
  revert x. induction p as [p IH|p IH|]; intros x; simpl.
  - rewrite !IH, <- !Pos.iter_swap. reflexivity.
  - rewrite !IH. reflexivity.
  - reflexivity.
Qed.

Lemma shr_1_m (mrs : shr_record) :
  0 <= shr_m mrs -> shr_m (shr_1 mrs) = Z.div2 (shr_m mrs).
Proof.
  destruct mrs as [m r s]. simpl. destruct m as [|p|p]; try lia; intros _.
  - reflexivity.
  - destruct p; reflexivity.
Qed.

Lemma shr_iter_m (p : positive) (mrs : shr_record) :
  0 <= shr_m mrs ->
  shr_m (iter_pos shr_1 p mrs) = Z.shiftr (shr_m mrs) (Zpos p).
Proof.
  intros Hm. rewrite iter_pos_iter.
  induction p as [|p IH] using Pos.peano_ind.
  - simpl. rewrite shr_1_m by assumption. now rewrite Z.div2_spec.
  - rewrite Pos.iter_succ, shr_1_m.
    + rewrite IH, Z.div2_spec, Z.shiftr_shiftr by lia. f_equal. lia.
    + rewrite IH. apply Z.shiftr_nonneg. assumption.
Qed.

Lemma shr_record_of_loc_m (m : Z) (l : location) :
  shr_m (shr_record_of_loc m l) = m.
Proof. destruct l as [|[]]; reflexivity. Qed.

(** [shr] with a non-negative count divides the mantissa by a power of two. *)
Lemma shr_spec (mrs : shr_record) (e k : Z) :
  0 <= shr_m mrs -> 0 <= k ->
  shr_m (fst (shr mrs e k)) = Z.shiftr (shr_m mrs) k /\
  snd (shr mrs e k) = e + k.
Proof.
  intros Hm Hk. destruct k as [|p|p]; try lia; simpl.
  - split; [reflexivity | lia].
  - split; [apply shr_iter_m, Hm | reflexivity].
Qed.

Lemma shr_fexp_spec (m e : Z) (l : location) :
  0 <= m -> e <= fexp (Zdigits2 m + e) ->
  shr_m (fst (shr_fexp F64.prec F64.emax m e l)) =
    Z.shiftr m (fexp (Zdigits2 m + e) - e) /\
  snd (shr_fexp F64.prec F64.emax m e l) = fexp (Zdigits2 m + e).
Proof.
  intros Hm He. unfold shr_fexp.
  destruct (@shr_spec (shr_record_of_loc m l) e
              (fexp (Zdigits2 m + e) - e)) as [H1 H2].
  - now rewrite shr_record_of_loc_m.
  - lia.
  - rewrite H1, H2, shr_record_of_loc_m. split; [reflexivity | lia].
Qed.

Lemma round_nearest_even_cases (m : Z) (l : location) :
  round_nearest_even m l = m \/ round_nearest_even m l = m + 1.
Proof.
  destruct l as [|[]]; simpl; auto. destruct (Z.even m); auto.
Qed.

Lemma Zdigits2_shiftr (m k : Z) :
  0 < m -> 0 <= k -> 0 < Z.shiftr m k ->
  Zdigits2 (Z.shiftr m k) = Zdigits2 m - k.
Proof.
  intros Hm Hk Hpos. rewrite !Zdigits2_log2 by assumption.
  rewrite Z.log2_shiftr by assumption.
  assert (k <= Z.log2 m); [|lia].
  destruct (Z.le_gt_cases k (Z.log2 m)) as [|Hlt]; [assumption|].
  rewrite Z.shiftr_eq_0 in Hpos by lia. lia.
Qed.

Lemma shiftr_zero_digits (m k : Z) :
  0 <= m -> 0 <= k -> Z.shiftr m k = 0 -> Zdigits2 m <= k.
Proof.
  intros Hm Hk H0. destruct (Z.eq_dec m 0) as [->|Hne]; [simpl; lia|].
  rewrite Zdigits2_log2 by lia.
  apply Z.shiftr_eq_0_iff in H0. lia.
Qed.

Lemma Zdigits2_succ (m : Z) :
  0 < m -> Zdigits2 m <= Zdigits2 (m + 1) <= Zdigits2 m + 1.
Proof.
  intros Hm. rewrite !Zdigits2_log2 by lia.
  destruct (Z.log2_succ_or m) as [H|H]; rewrite <- Z.add_1_r in H; lia.
Qed.

(** *** The shape of a rounded result *)

Lemma canonical_intro (p : positive) (e : Z) :
  fexp (Zdigits2 (Z.pos p) + e) = e ->
  e <= F64.emax - F64.prec ->
  bounded F64.prec F64.emax p e = true.
Proof.
  intros Hc He. unfold bounded, canonical_mantissa.
  apply andb_true_iff. split; [apply Z.eqb_eq, Hc | apply Z.leb_le, He].
Qed.

Lemma rounds_to_rounded (sx : bool) (e hi : Z) (x : spec_float) :
  rounds_to sx e hi x -> rounded sx e x.
Proof.
  intros [|m' e' Hc He Hhi]; [constructor|].
  destruct (Z.leb_spec e' (F64.emax - F64.prec)) as [Hle|Hgt].
  - constructor; [apply canonical_intro; assumption | lia].
  - constructor.
Qed.

Lemma rounds_to_weaken (sx : bool) (e hi hi' : Z) (x : spec_float) :
  hi <= hi' -> rounds_to sx e hi x -> rounds_to sx e hi' x.
Proof.
  intros Hle [|m' e' Hc He Hhi]; [constructor|].
  constructor; [assumption | assumption | lia].
Qed.

Lemma binary_round_aux_pack (sx : bool) (mx ex : Z) (lx : location) :
  binary_round_aux F64.prec F64.emax sx mx ex lx =
  let r1 := shr_fexp F64.prec F64.emax mx ex lx in
  pack sx (shr_fexp F64.prec F64.emax
             (round_nearest_even (shr_m (fst r1)) (loc_of_shr_record (fst r1)))
             (snd r1) loc_Exact).
Proof.
  unfold binary_round_aux, pack.
  destruct (shr_fexp F64.prec F64.emax mx ex lx) as [mrs' e']. simpl.
  destruct (shr_fexp _ _ _ _ _) as [mrs'' e'']. reflexivity.
Qed.

Lemma renorm_rounds (sx : bool) (m e : Z) :
  0 < m ->
  0 <= fexp (Zdigits2 m + e) - e <= 1 ->
  (fexp (Zdigits2 m + e) - e = 1 -> 2 <= m) ->
  rounds_to sx e m (pack sx (shr_fexp F64.prec F64.emax m e loc_Exact)).
Proof.
  intros Hm Hk H2.
  destruct (@shr_fexp_spec m e loc_Exact) as [Hsm Hse]; [lia | lia |].
  destruct (shr_fexp F64.prec F64.emax m e loc_Exact) as [mrs e'].
  simpl in Hsm, Hse. unfold pack. rewrite Hsm. clear Hsm.
  remember (fexp (Zdigits2 m + e)) as F eqn:HF. subst e'.
  assert (Hcases : F = e \/ F = e + 1) by lia.
  destruct Hcases as [H0|H1].
  - rewrite H0 in *. rewrite Z.sub_diag, Z.shiftr_0_r.
    destruct m as [|p|p]; try lia.
    constructor; [symmetry; exact HF | lia | ].
    rewrite Z.sub_diag, Z.pow_0_r. lia.
  - rewrite H1 in *. replace (e + 1 - e) with 1 by lia.
    assert (H2' : 2 <= m) by (apply H2; lia).
    assert (Hdiv : Z.shiftr m 1 = m / 2).
    { rewrite Z.shiftr_div_pow2 by lia. reflexivity. }
    assert (Hpos : 0 < Z.shiftr m 1).
    { rewrite Hdiv. apply Z.div_str_pos. lia. }
    pose proof (@Zdigits2_shiftr m 1 Hm ltac:(lia) Hpos) as Hd.
    assert (Hhalf : Z.shiftr m 1 * 2 <= m).
    { rewrite Hdiv. pose proof (Z.mul_div_le m 2 ltac:(lia)). lia. }
    destruct (Z.shiftr m 1) as [|p|p]; try lia.
    constructor; [ | lia | ].
    + rewrite Hd. rewrite HF at 2. f_equal. lia.
    + replace (e + 1 - e) with 1 by lia. change (2 ^ 1) with 2. lia.
Qed.

Lemma pack_zero (sx : bool) (e : Z) :
  pack sx (shr_fexp F64.prec F64.emax 0 e loc_Exact) = S754_zero sx.
Proof.
  unfold shr_fexp, pack. simpl Zdigits2. simpl shr_record_of_loc.
  destruct (shr {| shr_m := 0; shr_r := false; shr_s := false |} e (fexp (0 + e) - e))
    as [mrs e'] eqn:E.
  assert (Hm : shr_m mrs = 0).
  { unfold shr in E. destruct (fexp (0 + e) - e) as [|p|p].
    - injection E as <- _. reflexivity.
    - injection E as <- _. rewrite shr_iter_m by (simpl; lia). simpl shr_m.
      apply Z.shiftr_0_l.
    - injection E as <- _. reflexivity. }
  rewrite Hm. reflexivity.
Qed.

(** Rounding [mx * 2^ex] (with [mx] possibly followed by a non-zero
    fraction described by [lx]): the mantissa is first cut at the target
    exponent [e1], then rounded, which adds at most one unit. *)
Lemma binary_round_aux_rounds (sx : bool) (mx ex : Z) (lx : location) :
  0 <= mx -> ex <= fexp (Zdigits2 mx + ex) ->
  rounds_to sx (fexp (Zdigits2 mx + ex))
    (Z.shiftr mx (fexp (Zdigits2 mx + ex) - ex) + 1)
    (binary_round_aux F64.prec F64.emax sx mx ex lx).
Proof.
  intros Hmx Hex. rewrite binary_round_aux_pack. cbv zeta.
  destruct (@shr_fexp_spec mx ex lx Hmx Hex) as [Hm1 He1].
  destruct (shr_fexp F64.prec F64.emax mx ex lx) as [mrs1 e1].
  simpl in Hm1, He1. simpl fst. simpl snd. subst e1.
  set (e1 := fexp (Zdigits2 mx + ex)) in *.
  rewrite <- Hm1.
  set (m1 := shr_m mrs1) in *.
  assert (Hm1nn : 0 <= m1) by (rewrite Hm1; apply Z.shiftr_nonneg, Hmx).
  set (m1' := round_nearest_even m1 (loc_of_shr_record mrs1)).
  assert (Hm1' : m1' = m1 \/ m1' = m1 + 1) by apply round_nearest_even_cases.
  destruct (Z.eq_dec m1' 0) as [Hz|Hnz].
  { rewrite Hz, pack_zero. constructor. }
  assert (Hpos' : 0 < m1') by lia.
  apply rounds_to_weaken with (hi := m1'); [lia|].
  destruct (Z.eq_dec m1 0) as [Hz1|Hnz1].
  - (* everything was shifted out; the result is the least subnormal *)
    assert (Hone : m1' = 1) by lia. rewrite Hone.
    assert (Hd : Zdigits2 mx <= e1 - ex).
    { apply shiftr_zero_digits; [assumption | lia | ]. rewrite <- Hm1. exact Hz1. }
    apply renorm_rounds; [lia | | ];
      unfold e1 in *; rewrite !fexp64 in *; simpl Zdigits2; lia.
  - assert (Hd1 : Zdigits2 m1 = Zdigits2 mx - (e1 - ex)).
    { rewrite Hm1. apply Zdigits2_shiftr; try lia.
      destruct (Z.eq_dec mx 0) as [->|]; [|lia].
      rewrite Z.shiftr_0_l in Hm1. lia. }
    pose proof (@Zdigits2_succ m1 ltac:(lia)) as Hsucc.
    assert (Hd1' : Zdigits2 m1 <= Zdigits2 m1' <= Zdigits2 m1 + 1)
      by (destruct Hm1' as [->| ->]; lia).
    assert (Hm1'eq : Zdigits2 m1' = Zdigits2 m1 -> fexp (Zdigits2 m1' + e1) = e1).
    { intros ->. rewrite Hd1. unfold e1. f_equal. lia. }
    apply renorm_rounds; [lia | | ].
    + assert (fexp (Zdigits2 m1 + e1) = e1) by (rewrite Hd1; unfold e1; f_equal; lia).
      rewrite !fexp64 in *. lia.
    + intros Hk. destruct Hm1' as [Heq|Heq]; [|lia].
      rewrite Heq in Hk. rewrite Heq in Hm1'eq. specialize (Hm1'eq eq_refl). lia.
Qed.

Lemma binary_round_aux_rounded (sx : bool) (mx ex : Z) (lx : location) :
  0 <= mx -> ex <= fexp (Zdigits2 mx + ex) ->
  rounded sx (fexp (Zdigits2 mx + ex))
    (binary_round_aux F64.prec F64.emax sx mx ex lx).
Proof.
  intros Hmx Hex. eapply rounds_to_rounded, binary_round_aux_rounds; assumption.
Qed.

(** *** Well-formed mantissas *)

Lemma bounded_inv (m : positive) (e : Z) :
  bounded F64.prec F64.emax m e = true ->
  fexp (Zdigits2 (Z.pos m) + e) = e /\
  1 <= Zdigits2 (Z.pos m) <= 53 /\ -1074 <= e <= 971 /\
  (e = -1074 \/ Zdigits2 (Z.pos m) = 53).
Proof.
  unfold bounded, canonical_mantissa. intros H.
  apply andb_true_iff in H as [Hc He].
  apply Z.eqb_eq in Hc. apply Z.leb_le in He.
  change (Z.pos (digits2_pos m)) with (Zdigits2 (Z.pos m)) in Hc.
  split; [exact Hc|].
  assert (1 <= Zdigits2 (Z.pos m)) by (simpl; lia).
  rewrite fexp64 in Hc. change (F64.emax - F64.prec) with 971 in He. lia.
Qed.

Lemma fexp_mono (a b : Z) : a <= b -> fexp a <= fexp b.
Proof. rewrite !fexp64. lia. Qed.

Lemma Zdigits2_mul (a b : positive) :
  Zdigits2 (Z.pos a) + Zdigits2 (Z.pos b) - 1 <= Zdigits2 (Z.pos (a * b)).
Proof.
  rewrite Pos2Z.inj_mul, !Zdigits2_log2 by lia.
  pose proof (@Z.log2_mul_below (Z.pos a) (Z.pos b) ltac:(lia) ltac:(lia)). lia.
Qed.

Lemma pow2_digits_le (m : Z) : 0 < m -> 2 ^ (Zdigits2 m - 1) <= m.
Proof.
  intros Hm. rewrite Zdigits2_log2 by assumption.
  replace (Z.log2 m + 1 - 1) with (Z.log2 m) by lia.
  apply Z.log2_spec, Hm.
Qed.

Lemma digits_lt_pow2 (m : Z) : 0 < m -> m < 2 ^ Zdigits2 m.
Proof.
  intros Hm. rewrite Zdigits2_log2 by assumption.
  apply Z.log2_spec, Hm.
Qed.

Lemma Zdigits2_ge (m k : Z) : 0 < m -> 2 ^ k <= m -> k + 1 <= Zdigits2 m.
Proof.
  intros Hm Hk. rewrite Zdigits2_log2 by assumption.
  destruct (Z.le_gt_cases 0 k) as [H0|H0].
  - apply Z.log2_le_pow2 in Hk; lia.
  - pose proof (Z.log2_nonneg m). lia.
Qed.

(** *** Multiplication *)

Lemma SFmul_finite_rounds (sx sy : bool) (mx my : positive) (ex ey : Z) :
  bounded F64.prec F64.emax mx ex = true ->
  bounded F64.prec F64.emax my ey = true ->
  let e1 := fexp (Zdigits2 (Z.pos (mx * my)) + (ex + ey)) in
  ex + ey <= e1 /\
  rounds_to (xorb sx sy) e1 (Z.shiftr (Z.pos (mx * my)) (e1 - (ex + ey)) + 1)
    (SFmul F64.prec F64.emax (S754_finite sx mx ex) (S754_finite sy my ey)).
Proof.
  intros Hx Hy e1. cbv beta iota delta [SFmul].
  apply bounded_inv in Hx as (_ & Hdx & Hex & Hnx).
  apply bounded_inv in Hy as (_ & Hdy & Hey & Hny).
  pose proof (Zdigits2_mul mx my) as Hd.
  assert (Hpre : ex + ey <= e1) by (unfold e1; rewrite fexp64; lia).
  split; [exact Hpre|].
  apply binary_round_aux_rounds; [lia | exact Hpre].
Qed.

Lemma SFmul_finite_rounded (sx sy : bool) (mx my : positive) (ex ey : Z) :
  bounded F64.prec F64.emax mx ex = true ->
  bounded F64.prec F64.emax my ey = true ->
  rounded (xorb sx sy) (fexp (Zdigits2 (Z.pos (mx * my)) + (ex + ey)))
    (SFmul F64.prec F64.emax (S754_finite sx mx ex) (S754_finite sy my ey)).
Proof.
  intros Hx Hy. eapply rounds_to_rounded.
  apply SFmul_finite_rounds; assumption.
Qed.

(** *** Division *)

Lemma SFdiv_core_pre (mx my : positive) (ex ey : Z) :
  let '(mz, ez, lz) :=
    SFdiv_core_binary F64.prec F64.emax (Z.pos mx) ex (Z.pos my) ey in
  0 <= mz /\ ez <= fexp (Zdigits2 mz + ez).
Proof.
  unfold SFdiv_core_binary.
  set (dx := Zdigits2 (Z.pos mx)). set (dy := Zdigits2 (Z.pos my)).
  set (e' := Z.min (fexp (dx + ex - (dy + ey))) (ex - ey)).
  set (s := ex - ey - e').
  assert (Hs : 0 <= s) by (unfold s, e'; lia).
  set (m' := match s with Z.pos _ => Z.shiftl (Z.pos mx) s | 0 => Z.pos mx | Z.neg _ => 0 end).
  assert (Hm' : m' = Z.pos mx * 2 ^ s).
  { unfold m'. destruct s as [|p|p];
      [ rewrite Z.pow_0_r, Z.mul_1_r; reflexivity
      | apply Z.shiftl_mul_pow2; lia
      | lia ]. }
  clearbody m'.
  pose proof (Z_div_mod m' (Z.pos my) ltac:(lia)) as Hdm.
  destruct (Z.div_eucl m' (Z.pos my)) as [q r]. destruct Hdm as [Hq Hr].
  assert (H2s : 0 < 2 ^ s) by (apply Z.pow_pos_nonneg; lia).
  assert (Hqnn : 0 <= q) by nia.
  split; [exact Hqnn|].
  assert (Hdx : 2 ^ (dx - 1) <= Z.pos mx) by (apply pow2_digits_le; lia).
  assert (Hdy : Z.pos my < 2 ^ dy) by (apply digits_lt_pow2; lia).
  assert (Hdx1 : 1 <= dx) by (unfold dx; simpl; lia).
  assert (Hdy1 : 1 <= dy) by (unfold dy; simpl; lia).
  assert (Hlow : 2 ^ (dx - 1 + s) <= m').
  { rewrite Hm', Z.pow_add_r by lia. nia. }
  destruct (Z.eq_dec q 0) as [->|Hq0].
  - (* the quotient underflows to zero *)
    simpl Zdigits2.
    assert (Hlt : 2 ^ (dx - 1 + s) < 2 ^ dy) by lia.
    apply Z.pow_lt_mono_r_iff in Hlt; [|lia|lia].
    unfold s in Hlt. unfold e' in *. rewrite !fexp64 in *. lia.
  - assert (Hdq : dx + s - dy <= Zdigits2 q).
    { destruct (Z.le_gt_cases 0 (dx - 1 + s - dy)) as [Hge|Hlt].
      - assert (2 ^ (dx - 1 + s - dy) <= q); [|apply Zdigits2_ge in H; lia].
        assert (Hsplit : 2 ^ (dx - 1 + s) = 2 ^ (dx - 1 + s - dy) * 2 ^ dy).
        { rewrite <- Z.pow_add_r by lia. f_equal. lia. }
        assert (0 < 2 ^ (dx - 1 + s - dy)) by (apply Z.pow_pos_nonneg; lia).
        nia.
      - assert (1 <= Zdigits2 q); [|lia].
        rewrite Zdigits2_log2 by lia. pose proof (Z.log2_nonneg q). lia. }
    apply Z.le_trans with (fexp (dx + ex - (dy + ey))).
    + unfold e'. lia.
    + apply fexp_mono. unfold s in Hdq. lia.
Qed.

Lemma SFdiv_finite_rounded (sx sy : bool) (mx my : positive) (ex ey : Z) :
  exists elo,
    rounded (xorb sx sy) elo
      (SFdiv F64.prec F64.emax (S754_finite sx mx ex) (S754_finite sy my ey)).
Proof.
  cbv beta iota delta [SFdiv]. pose proof (SFdiv_core_pre mx my ex ey) as Hpre.
  destruct (SFdiv_core_binary _ _ _ _ _ _) as [[mz ez] lz].
  destruct Hpre as [Hmz Hez]. eexists.
  apply binary_round_aux_rounded; assumption.
Qed.

(** *** Order of canonical numbers *)

Lemma leb_of_value (mx my : positive) (ex ey : Z) :
  fexp (Zdigits2 (Z.pos mx) + ex) = ex ->
  bounded F64.prec F64.emax my ey = true ->
  Z.pos mx * 2 ^ (ex + 1074) <= Z.pos my * 2 ^ (ey + 1074) ->
  ex <= ey /\
  SFleb (S754_finite false mx ex) (S754_finite false my ey) = true.
Proof.
  intros Hcx Hy Hval.
  apply bounded_inv in Hy as (_ & Hdy & Hey & _).
  assert (Hdx1 : 1 <= Zdigits2 (Z.pos mx)) by (simpl; lia).
  assert (Hle : ex <= ey).
  { destruct (Z.le_gt_cases ex ey) as [|Hgt]; [assumption|exfalso].
    assert (Hdx : Zdigits2 (Z.pos mx) = 53) by (rewrite fexp64 in Hcx; lia).
    pose proof (@pow2_digits_le (Z.pos mx) ltac:(lia)) as Hlo.
    rewrite Hdx in Hlo. change (2 ^ (53 - 1)) with 4503599627370496 in Hlo.
    pose proof (@digits_lt_pow2 (Z.pos my) ltac:(lia)) as Hhi.
    assert (Hhi' : Z.pos my < 2 ^ 53).
    { eapply Z.lt_le_trans; [exact Hhi|]. apply Z.pow_le_mono_r; lia. }
    change (2 ^ 53) with 9007199254740992 in Hhi'.
    replace (ex + 1074) with ((ex - ey - 1) + 1 + (ey + 1074)) in Hval by lia.
    rewrite !Z.pow_add_r in Hval by lia. change (2 ^ 1) with 2 in Hval.
    assert (HA : 0 < 2 ^ (ex - ey - 1)) by (apply Z.pow_pos_nonneg; lia).
    assert (HB : 0 < 2 ^ (ey + 1074)) by (apply Z.pow_pos_nonneg; lia).
    rewrite !Z.mul_assoc in Hval.
    apply Z.mul_le_mono_pos_r in Hval; [|exact HB].
    assert (Z.pos mx <= Z.pos mx * 2 ^ (ex - ey - 1)) by nia.
    lia. }
  split; [exact Hle|].
  unfold SFleb, SFcompare.
  destruct (Z.compare_spec ex ey) as [Heq|Hlt|Hgt]; [|reflexivity|lia].
  subst ey.
  assert (0 < 2 ^ (ex + 1074)) by (apply Z.pow_pos_nonneg; rewrite fexp64 in Hcx; lia).
  assert (Hm : (mx <= my)%positive) by nia.
  change (Pos.compare_cont Eq mx my) with (mx ?= my)%positive.
  destruct (Pos.compare_spec mx my); [reflexivity | reflexivity | lia].
Qed.

(** *** Taking 70% of a non-negative double does not increase it *)

Lemma mul_seven_tenths_le (m : positive) (e : Z) :
  bounded F64.prec F64.emax m e = true ->
  SFleb (SFmul F64.prec F64.emax (S754_finite false m e) seven_tenths)
        (S754_finite false m e) = true.
Proof.
  intros Hb.
  change seven_tenths with (S754_finite false 6305039478318694 (-53)).
  pose proof (@SFmul_finite_rounds false false m 6305039478318694 e (-53) Hb eq_refl)
    as Hmul.
  cbv zeta in Hmul. destruct Hmul as [Hpre Hr]. simpl xorb in Hr.
  pose proof (bounded_inv _ _ Hb) as (Hc & Hd & He & _).
  set (M := Z.pos (m * 6305039478318694)) in *.
  set (e1 := fexp (Zdigits2 M + (e + -53))) in *.
  assert (HM : M < Z.pos m * 2 ^ 53).
  { unfold M. rewrite Pos2Z.inj_mul. change (2 ^ 53) with 9007199254740992. lia. }
  assert (HdM : Zdigits2 M <= Zdigits2 (Z.pos m) + 53).
  { assert (Hlt : M < 2 ^ (Zdigits2 (Z.pos m) + 53)).
    { rewrite Z.pow_add_r by lia.
      pose proof (@digits_lt_pow2 (Z.pos m) ltac:(lia)).
      change (2 ^ 53) with 9007199254740992 in *. nia. }
    unfold M in *. rewrite Zdigits2_log2 by lia.
    apply Z.log2_lt_pow2 in Hlt; lia. }
  assert (He1 : e1 <= e).
  { unfold e1. rewrite <- Hc at 2. apply fexp_mono. lia. }
  set (t := e1 - (e + -53)) in *.
  assert (Ht : 0 <= t <= 53) by (unfold t; lia).
  assert (Hteq : t = e1 - (e + -53)) by reflexivity.
  assert (He1lo : -1074 <= e1) by (unfold e1; rewrite fexp64; lia).
  clearbody t e1 M.
  assert (Hhi : (Z.shiftr M t + 1) * 2 ^ (e1 + 1074)
                <= Z.pos m * 2 ^ (e + 1074)).
  { assert (Hpt : 0 < 2 ^ t) by (apply Z.pow_pos_nonneg; lia).
    assert (Hq : Z.shiftr M t < Z.pos m * 2 ^ (53 - t)).
    { rewrite Z.shiftr_div_pow2 by lia.
      apply Z.div_lt_upper_bound; [exact Hpt|].
      rewrite Z.mul_comm, <- Z.mul_assoc, <- Z.pow_add_r by lia.
      replace (53 - t + t) with 53 by lia. exact HM. }
    replace (e + 1074) with ((53 - t) + (e1 + 1074)) by lia.
    rewrite (Z.pow_add_r 2 (53 - t) (e1 + 1074)) by lia.
    assert (0 < 2 ^ (e1 + 1074)) by (apply Z.pow_pos_nonneg; lia).
    nia. }
  set (res := SFmul F64.prec F64.emax (S754_finite false m e)
                (S754_finite false 6305039478318694 (-53))) in *.
  clearbody res. destruct Hr as [|m' e' Hc' He' Hm'].
  - reflexivity.
  - assert (Hval : Z.pos m' * 2 ^ (e' + 1074) <= Z.pos m * 2 ^ (e + 1074)).
    { replace (e' + 1074) with ((e' - e1) + (e1 + 1074)) by lia.
      rewrite (Z.pow_add_r 2 (e' - e1) (e1 + 1074)) by lia.
      assert (0 < 2 ^ (e1 + 1074)) by (apply Z.pow_pos_nonneg; lia).
      nia. }
    destruct (@leb_of_value m' m e' e Hc' Hb Hval) as [Hle Hleb].
    assert (Hfin : (e' <=? F64.emax - F64.prec) = true)
      by (apply Z.leb_le; change (F64.emax - F64.prec) with 971; lia).
    rewrite Hfin. exact Hleb.
Qed.

(** *** Alignment and subtraction *)

Lemma iter_xO_pow2 (m d : positive) :
  Z.pos (Pos.iter xO m d) = Z.pos m * 2 ^ Z.pos d.
Proof.
  rewrite (Pos.iter_swap_gen _ _ Z.pos xO (Z.mul 2)) by reflexivity.
  change (Pos.iter (Z.mul 2) (Z.pos m) d) with (Z.shiftl (Z.pos m) (Z.pos d)).
  apply Z.shiftl_mul_pow2. lia.
Qed.

Lemma shl_align_spec (mx : positive) (ex ez : Z) :
  ez <= ex ->
  Z.pos (fst (shl_align mx ex ez)) = Z.pos mx * 2 ^ (ex - ez) /\
  snd (shl_align mx ex ez) = ez.
Proof.
  intros Hle. unfold shl_align.
  destruct (ez - ex) as [|d|d] eqn:E; try lia; simpl fst; simpl snd.
  - replace (ex - ez) with 0 by lia. rewrite Z.pow_0_r. lia.
  - rewrite iter_xO_pow2. replace (ex - ez) with (Z.pos d) by lia. lia.
Qed.

Lemma Zdigits2_mul_pow2 (m k : Z) :
  0 < m -> 0 <= k -> Zdigits2 (m * 2 ^ k) = Zdigits2 m + k.
Proof.
  intros Hm Hk.
  assert (0 < 2 ^ k) by (apply Z.pow_pos_nonneg; lia).
  rewrite !Zdigits2_log2 by nia.
  rewrite Z.log2_mul_pow2 by lia. lia.
Qed.

Lemma binary_round_rounded (sx : bool) (mx : positive) (ex : Z) :
  exists elo, rounded sx elo (binary_round F64.prec F64.emax sx mx ex).
Proof.
  unfold binary_round.
  change (Z.pos (digits2_pos mx)) with (Zdigits2 (Z.pos mx)).
  set (F := fexp (Zdigits2 (Z.pos mx) + ex)).
  destruct (Z.le_gt_cases ex F) as [Hle|Hgt].
  - assert (Hal : shl_align mx ex F = (mx, ex)).
    { unfold shl_align. destruct (F - ex) as [|d|d] eqn:E; try lia; reflexivity. }
    rewrite Hal. eexists. apply binary_round_aux_rounded; [lia | exact Hle].
  - destruct (@shl_align_spec mx ex F ltac:(lia)) as [Hm He].
    destruct (shl_align mx ex F) as [mz ez]. cbn [fst snd] in Hm, He. subst ez.
    eexists. apply binary_round_aux_rounded; [lia|].
    rewrite Hm, Zdigits2_mul_pow2 by lia.
    replace (Zdigits2 (Z.pos mx) + (ex - F) + F) with (Zdigits2 (Z.pos mx) + ex) by lia.
    fold F. lia.
Qed.

(** *** Results of a given sign *)

Lemma rounded_signed (sx : bool) (elo : Z) (x : spec_float) :
  rounded sx elo x -> signed sx x.
Proof. intros [| |m e Hb He]; simpl; auto. Qed.

Lemma SFmul_signed (sx : bool) (x : spec_float) (mk : positive) (ek : Z) :
  signed sx x -> bounded F64.prec F64.emax mk ek = true ->
  signed sx (SFmul F64.prec F64.emax x (S754_finite false mk ek)).
Proof.
  intros Hx Hk. destruct x as [s|s| |s m e]; simpl in Hx.
  - exact I.
  - subst s. simpl. apply xorb_false_r.
  - contradiction.
  - destruct Hx as [-> Hb]. rewrite <- (xorb_false_r sx) at 1.
    eapply rounded_signed. apply SFmul_finite_rounded; assumption.
Qed.

Lemma SFdiv_signed (sx : bool) (x : spec_float) (md : positive) (ed : Z) :
  signed sx x -> signed sx (SFdiv F64.prec F64.emax x (S754_finite false md ed)).
Proof.
  intros Hx. destruct x as [s|s| |s m e]; simpl in Hx.
  - exact I.
  - subst s. simpl. apply xorb_false_r.
  - contradiction.
  - destruct Hx as [-> Hb].
    destruct (SFdiv_finite_rounded sx false m md e ed) as [elo Hr].
    rewrite <- (xorb_false_r sx) at 1. eapply rounded_signed. exact Hr.
Qed.



Lemma rounded_valid (sx : bool) (elo : Z) (x : spec_float) :
  rounded sx elo x -> F64.valid x = true.
Proof. intros [| |m e Hb He]; simpl; auto. Qed.

(** The aligned mantissas of two ordered positive doubles. *)
Lemma aligned_order (mc mv : positive) (ec ev : Z) :
  bounded F64.prec F64.emax mc ec = true ->
  bounded F64.prec F64.emax mv ev = true ->
  SFleb (S754_finite false mc ec) (S754_finite false mv ev) = true ->
  Z.pos mc * 2 ^ (ec - Z.min ev ec) <= Z.pos mv * 2 ^ (ev - Z.min ev ec).
Proof.
  intros Hc Hv Hcv.
  pose proof (bounded_inv _ _ Hv) as (_ & Hdv & Hev & Hnv).
  pose proof (bounded_inv _ _ Hc) as (_ & Hdc & Hec & Hnc).
  unfold SFleb, SFcompare in Hcv.
  destruct (Z.compare_spec ec ev) as [Heq|Hlt|Hgt]; [| |discriminate Hcv].
  - subst ev. change (Pos.compare_cont Eq mc mv) with (mc ?= mv)%positive in Hcv.
    assert (mc <= mv)%positive
      by (destruct (Pos.compare_spec mc mv); [lia | lia | discriminate Hcv]).
    assert (0 < 2 ^ (ec - Z.min ec ec)) by (apply Z.pow_pos_nonneg; lia).
    nia.
  - replace (Z.min ev ec) with ec by lia.
    rewrite Z.sub_diag, Z.pow_0_r, Z.mul_1_r.
    assert (Hdv53 : Zdigits2 (Z.pos mv) = 53) by lia.
    pose proof (pow2_digits_le (Z.pos mv) ltac:(lia)) as Hlo.
    rewrite Hdv53 in Hlo. change (2 ^ (53 - 1)) with 4503599627370496 in Hlo.
    pose proof (digits_lt_pow2 (Z.pos mc) ltac:(lia)) as Hhi.
    assert (Hhi' : Z.pos mc < 2 ^ 53).
    { eapply Z.lt_le_trans; [exact Hhi|]. apply Z.pow_le_mono_r; lia. }
    change (2 ^ 53) with 9007199254740992 in Hhi'.
    assert (2 <= 2 ^ (ev - ec)).
    { change 2 with (2 ^ 1) at 1. apply Z.pow_le_mono_r; lia. }
    nia.
Qed.

Lemma SFsub_nonneg (v c : spec_float) :
  F64.valid v = true -> F64.valid c = true ->
  F64.is_real v = true -> F64.is_real c = true ->
  SFleb (F64.of_Z 0) c = true -> SFleb c v = true ->
  signed false (SFsub F64.prec F64.emax v c).
Proof.
  intros Hv Hc Hrv Hrc H0c Hcv.
  destruct v as [sv|sv| |sv mv ev]; try discriminate;
    destruct c as [sc|sc| |sc mc ec]; try discriminate.
  - destruct sv, sc; exact I.
  - destruct sc; [discriminate H0c | discriminate Hcv].
  - destruct sv; [discriminate Hcv|]. simpl. simpl in Hv. auto.
  - destruct sc; [discriminate H0c|]. destruct sv; [discriminate Hcv|].
    simpl in Hv, Hc.
    pose proof (aligned_order mc mv ec ev Hc Hv Hcv) as Hord.
    cbv beta iota delta [SFsub]. cbv zeta. unfold cond_Zopp.
    set (ez := Z.min ev ec) in *.
    destruct (shl_align_spec mv ev ez ltac:(unfold ez; lia)) as [HA _].
    destruct (shl_align_spec mc ec ez ltac:(unfold ez; lia)) as [HB _].
    rewrite HA, HB.
    unfold binary_normalize.
    destruct (Z.pos mv * 2 ^ (ev - ez) - Z.pos mc * 2 ^ (ec - ez)) as [|p|p] eqn:E;
      try lia.
    + exact I.
    + destruct (binary_round_rounded false p ez) as [elo Hr].
      eapply rounded_signed. exact Hr.
Qed.

Lemma mul_seven_tenths_nonneg_le (y : spec_float) :
  signed false y ->
  SFleb (SFmul F64.prec F64.emax y seven_tenths) y = true.
Proof.
  intros Hy. destruct y as [s|s| |s m e]; simpl in Hy.
  - destruct s; reflexivity.
  - subst s. reflexivity.
  - contradiction.
  - destruct Hy as [-> Hb]. apply mul_seven_tenths_le, Hb.
Qed.

Lemma SFmul_comm (x y : spec_float) :
  SFmul F64.prec F64.emax x y = SFmul F64.prec F64.emax y x.
Proof.
  destruct x as [sx|sx| |sx mx ex], y as [sy|sy| |sy my ey];
    cbv beta iota delta [SFmul]; try reflexivity;
    try (now rewrite xorb_comm).
  now rewrite xorb_comm, Pos.mul_comm, Z.add_comm.
Qed.

(** *** Scaling by two *)

Lemma shr_succ_exp (mrs : shr_record) (e k : Z) :
  shr mrs (e + 1) k = (fst (shr mrs e k), snd (shr mrs e k) + 1).
Proof. destruct k; simpl; f_equal; lia. Qed.

Lemma pack_succ_exp (sx : bool) (mrs : shr_record) (e : Z) :
  pack sx (mrs, e + 1) = double_exp (pack sx (mrs, e)).
Proof.
  unfold pack, double_exp. destruct (shr_m mrs) as [|m|m]; try reflexivity.
  change (F64.emax - F64.prec) with 971.
  destruct (Z.leb_spec e 971) as [Hle|Hgt]; [reflexivity|].
  destruct (Z.leb_spec (e + 1) 971); [lia | reflexivity].
Qed.

Lemma shr_fexp_succ_exp (m e : Z) (l : location) :
  -1074 <= Zdigits2 m + e - 53 ->
  shr_fexp F64.prec F64.emax m (e + 1) l =
  (fst (shr_fexp F64.prec F64.emax m e l),
   snd (shr_fexp F64.prec F64.emax m e l) + 1).
Proof.
  intros Hlin. unfold shr_fexp.
  replace (fexp (Zdigits2 m + (e + 1)) - (e + 1))
    with (fexp (Zdigits2 m + e) - e) by (rewrite !fexp64; lia).
  apply shr_succ_exp.
Qed.

(** Away from the subnormal range, rounding commutes with a shift of the
    exponent. *)
Lemma binary_round_aux_succ_exp (sx : bool) (mx ex : Z) (lx : location) :
  0 < mx -> ex <= fexp (Zdigits2 mx + ex) ->
  -1074 <= Zdigits2 mx + ex - 53 ->
  binary_round_aux F64.prec F64.emax sx mx (ex + 1) lx =
  double_exp (binary_round_aux F64.prec F64.emax sx mx ex lx).
Proof.
  intros Hmx Hpre Hlin. rewrite !binary_round_aux_pack. cbv zeta.
  rewrite shr_fexp_succ_exp by exact Hlin. cbn [fst snd].
  destruct (@shr_fexp_spec mx ex lx ltac:(lia) Hpre) as [Hm1 He1].
  destruct (shr_fexp F64.prec F64.emax mx ex lx) as [mrs1 e1].
  cbn [fst snd] in *.
  set (m1 := shr_m mrs1) in *.
  set (m1' := round_nearest_even m1 (loc_of_shr_record mrs1)).
  assert (He1v : e1 = Zdigits2 mx + ex - 53) by (rewrite He1, fexp64; lia).
  assert (Hm1pos : 0 < m1).
  { rewrite Hm1.
    replace (fexp (Zdigits2 mx + ex) - ex) with (Zdigits2 mx - 53)
      by (rewrite fexp64; lia).
    rewrite Z.shiftr_div_pow2 by (rewrite fexp64 in Hpre; lia).
    apply Z.div_str_pos. split; [apply Z.pow_pos_nonneg; rewrite fexp64 in Hpre; lia|].
    eapply Z.le_trans; [|apply pow2_digits_le; exact Hmx].
    apply Z.pow_le_mono_r; lia. }
  assert (Hd1 : Zdigits2 m1 = 53).
  { rewrite Hm1, Zdigits2_shiftr;
      [rewrite fexp64; lia | lia | lia | rewrite <- Hm1; exact Hm1pos]. }
  assert (Hm1' : m1' = m1 \/ m1' = m1 + 1) by apply round_nearest_even_cases.
  pose proof (@Zdigits2_succ m1 Hm1pos) as Hsucc.
  assert (Hd1' : 53 <= Zdigits2 m1') by (destruct Hm1' as [->| ->]; lia).
  rewrite shr_fexp_succ_exp by lia.
  destruct (shr_fexp F64.prec F64.emax m1' e1 loc_Exact) as [mrs2 e2].
  cbn [fst snd]. apply pack_succ_exp.
Qed.

Lemma shr_exact (m k : positive) :
  iter_pos shr_1 k (shr_record_of_loc (Z.pos (Pos.iter xO m k)) loc_Exact) =
  shr_record_of_loc (Z.pos m) loc_Exact.
Proof.
  rewrite iter_pos_iter. simpl shr_record_of_loc.
  induction k as [|k IH] using Pos.peano_ind.
  - reflexivity.
  - rewrite Pos.iter_succ_r, Pos.iter_succ. exact IH.
Qed.

(** Multiplying a normal double by two moves it to the next binade. *)
Lemma SFmul_two (s : bool) (m : positive) (e : Z) :
  bounded F64.prec F64.emax m e = true ->
  Zdigits2 (Z.pos m) = 53 ->
  SFmul F64.prec F64.emax two (S754_finite s m e) = double_exp (S754_finite s m e).
Proof.
  intros Hb Hd. pose proof (bounded_inv _ _ Hb) as (Hc & _ & He & _).
  rewrite SFmul_comm.
  change two with (S754_finite false 4503599627370496 (-51)).
  cbv beta iota delta [SFmul]. rewrite xorb_false_r.
  assert (HM : (m * 4503599627370496)%positive = Pos.iter xO m 52).
  { apply Pos2Z.inj. rewrite iter_xO_pow2, Pos2Z.inj_mul. reflexivity. }
  rewrite HM, binary_round_aux_pack. cbv zeta.
  assert (HdM : Zdigits2 (Z.pos (Pos.iter xO m 52)) = 105).
  { rewrite iter_xO_pow2, Zdigits2_mul_pow2 by lia. lia. }
  assert (H1 : shr_fexp F64.prec F64.emax (Z.pos (Pos.iter xO m 52)) (e + -51) loc_Exact
               = (shr_record_of_loc (Z.pos m) loc_Exact, e + 1)).
  { unfold shr_fexp. rewrite HdM.
    replace (fexp (105 + (e + -51)) - (e + -51)) with 52 by (rewrite fexp64; lia).
    unfold shr. rewrite shr_exact. f_equal. lia. }
  rewrite H1. cbn [fst snd]. simpl shr_record_of_loc. cbn [shr_m loc_of_shr_record].
  cbn [round_nearest_even].
  unfold shr_fexp. rewrite Hd.
  replace (fexp (53 + (e + 1)) - (e + 1)) with 0 by (rewrite fexp64; lia).
  reflexivity.
Qed.

(** Multiplication by a normal constant. *)
Lemma SFmul_succ_exp (sx sy : bool) (mx my : positive) (ex ey : Z) :
  bounded F64.prec F64.emax mx ex = true ->
  bounded F64.prec F64.emax my ey = true ->
  -1074 <= Zdigits2 (Z.pos mx) + Zdigits2 (Z.pos my) - 1 + (ex + ey) - 53 ->
  SFmul F64.prec F64.emax (S754_finite sx mx (ex + 1)) (S754_finite sy my ey) =
  double_exp (SFmul F64.prec F64.emax (S754_finite sx mx ex) (S754_finite sy my ey)).
Proof.
  intros Hx Hy Hlin.
  destruct (@SFmul_finite_rounds sx sy mx my ex ey Hx Hy) as [Hpre _].
  cbv beta iota delta [SFmul].
  replace (ex + 1 + ey) with (ex + ey + 1) by lia.
  pose proof (Zdigits2_mul mx my).
  apply binary_round_aux_succ_exp; [lia | exact Hpre | lia].
Qed.

(** *** Subtraction yields well-formed doubles *)

Lemma SFsub_valid (x y : spec_float) :
  F64.valid x = true -> F64.valid y = true ->
  F64.valid (SFsub F64.prec F64.emax x y) = true.
Proof.
  intros Hx Hy.
  destruct x as [sx|sx| |sx mx ex], y as [sy|sy| |sy my ey];
    try (destruct sx, sy; reflexivity); try assumption; try reflexivity.
  cbv beta iota delta [SFsub]. cbv zeta. unfold binary_normalize.
  destruct (_ - _)%Z as [|p|p].
  - reflexivity.
  - destruct (binary_round_rounded false p (Z.min ex ey)) as [elo Hr].
    eapply rounded_valid, Hr.
  - destruct (binary_round_rounded true p (Z.min ex ey)) as [elo Hr].
    eapply rounded_valid, Hr.
Qed.


Lemma SFsub_nonpos (v c : spec_float) :
  F64.valid v = true -> F64.valid c = true ->
  F64.is_real v = true -> F64.is_real c = true ->
  SFleb (F64.of_Z 0) v = true -> SFleb v c = true ->
  signed true (SFsub F64.prec F64.emax v c).
Proof.
  intros Hv Hc Hrv Hrc H0v Hvc.
  destruct v as [sv|sv| |sv mv ev]; try discriminate;
    destruct c as [sc|sc| |sc mc ec]; try discriminate.
  - destruct sv, sc; exact I.
  - destruct sc; [discriminate Hvc|]. simpl. simpl in Hc. auto.
  - destruct sv; [discriminate H0v | discriminate Hvc].
  - destruct sv; [discriminate H0v|]. destruct sc; [discriminate Hvc|].
    simpl in Hv, Hc.
    pose proof (aligned_order mv mc ev ec Hv Hc Hvc) as Hord.
    rewrite (Z.min_comm ec ev) in Hord.
    cbv beta iota delta [SFsub]. cbv zeta. unfold cond_Zopp.
    set (ez := Z.min ev ec) in *.
    destruct (shl_align_spec mv ev ez ltac:(unfold ez; lia)) as [HA _].
    destruct (shl_align_spec mc ec ez ltac:(unfold ez; lia)) as [HB _].
    rewrite HA, HB.
    unfold binary_normalize.
    destruct (Z.pos mv * 2 ^ (ev - ez) - Z.pos mc * 2 ^ (ec - ez)) as [|p|p] eqn:E;
      try lia.
    + exact I.
    + destruct (binary_round_rounded true p ez) as [elo Hr].
      eapply rounded_signed. exact Hr.
Qed.

(** *** Negative values *)

(** Comparison of two negative doubles is the reverse of the comparison
    of their opposites. *)
Lemma SFleb_opp (x y : spec_float) :
  signed false x -> signed false y ->
  SFleb x y = true -> SFleb (SFopp y) (SFopp x) = true.
Proof.
  intros Hx Hy.
  destruct x as [sx|sx| |sx mx ex]; simpl in Hx;
    [ | subst sx | contradiction | destruct Hx as [-> _] ];
    (destruct y as [sy|sy| |sy my ey]; simpl in Hy;
     [ | subst sy | contradiction | destruct Hy as [-> _] ]);
    try (repeat match goal with b : bool |- _ => destruct b end;
         cbv; congruence).
  cbn [SFopp negb]. unfold SFleb, SFcompare.
  rewrite (Z.compare_antisym ex ey).
  destruct (ex ?= ey); simpl; try congruence.
  rewrite (Pos.compare_cont_antisym my mx Eq). simpl.
  destruct (Pos.compare_cont Eq mx my); simpl; congruence.
Qed.

Lemma binary_round_aux_opp (sx : bool) (mx ex : Z) (lx : location) :
  binary_round_aux F64.prec F64.emax (negb sx) mx ex lx =
  SFopp (binary_round_aux F64.prec F64.emax sx mx ex lx).
Proof.
  rewrite !binary_round_aux_pack. cbv zeta.
  match goal with
  | |- pack _ ?r = _ => destruct r as [mrs e]
  end.
  unfold pack. destruct (shr_m mrs) as [|p|p]; try reflexivity.
  destruct (e <=? F64.emax - F64.prec); reflexivity.
Qed.

Lemma SFmul_opp (x k : spec_float) :
  SFmul F64.prec F64.emax (SFopp x) k = SFopp (SFmul F64.prec F64.emax x k).
Proof.
  destruct x as [sx|sx| |sx mx ex], k as [sk|sk| |sk mk ek];
    try reflexivity;
    try (simpl; now destruct sx, sk).
  cbv beta iota delta [SFmul]. cbn [SFopp].
  rewrite <- binary_round_aux_opp. f_equal. now destruct sx, sk.
Qed.

Lemma mul_seven_tenths_nonpos_ge (y : spec_float) :
  signed true y ->
  SFleb y (SFmul F64.prec F64.emax y seven_tenths) = true.
Proof.
  intros Hy.
  assert (Hopp : signed false (SFopp y)).
  { destruct y as [s|s| |s m e]; simpl in *; auto.
    - now subst s.
    - destruct Hy as [-> Hb]. auto. }
  assert (Hy' : y = SFopp (SFopp y)) by (destruct y as [[]|[]| |[] m e]; reflexivity).
  rewrite Hy' at 1 2. rewrite SFmul_opp.
  apply SFleb_opp.
  - change seven_tenths with (S754_finite false 6305039478318694 (-53)).
    apply SFmul_signed; [exact Hopp | reflexivity].
  - exact Hopp.
  - apply mul_seven_tenths_nonneg_le.
    destruct (SFopp y) as [s|s| |s m e]; simpl in *; auto.
Qed.

(** *** Doubling a subnormal *)

Lemma SFmul_two_subnormal (s : bool) (m : positive) (e : Z) :
  bounded F64.prec F64.emax m e = true ->
  Zdigits2 (Z.pos m) < 53 ->
  SFmul F64.prec F64.emax two (S754_finite s m e) = S754_finite s (m~0) e.
Proof.
  intros Hb Hd. pose proof (bounded_inv _ _ Hb) as (Hc & Hd1 & He & Hn).
  assert (He' : e = -1074) by lia. subst e.
  rewrite SFmul_comm.
  change two with (S754_finite false 4503599627370496 (-51)).
  cbv beta iota delta [SFmul]. rewrite xorb_false_r.
  assert (HM : (m * 4503599627370496)%positive = Pos.iter xO (m~0)%positive 51).
  { apply Pos2Z.inj. rewrite iter_xO_pow2, Pos2Z.inj_mul.
    change (Z.pos m~0) with (2 * Z.pos m). change (2 ^ 51) with 2251799813685248. lia. }
  rewrite HM, binary_round_aux_pack. cbv zeta.
  assert (Hd2 : Zdigits2 (Z.pos m~0) = Zdigits2 (Z.pos m) + 1).
  { simpl. lia. }
  assert (HdM : Zdigits2 (Z.pos (Pos.iter xO (m~0)%positive 51)) = Zdigits2 (Z.pos m) + 52).
  { rewrite iter_xO_pow2, Zdigits2_mul_pow2 by lia. lia. }
  assert (H1 : shr_fexp F64.prec F64.emax (Z.pos (Pos.iter xO (m~0)%positive 51))
                 (-1074 + -51) loc_Exact
               = (shr_record_of_loc (Z.pos m~0) loc_Exact, -1074)).
  { unfold shr_fexp. rewrite HdM.
    replace (fexp (Zdigits2 (Z.pos m) + 52 + (-1074 + -51)) - (-1074 + -51)) with 51
      by (rewrite fexp64; lia).
    unfold shr. rewrite shr_exact. reflexivity. }
  rewrite H1. cbn [fst snd]. simpl shr_record_of_loc. cbn [shr_m loc_of_shr_record].
  cbn [round_nearest_even].
  unfold shr_fexp. rewrite Hd2.
  replace (fexp (Zdigits2 (Z.pos m) + 1 + -1074) - -1074) with 0 by (rewrite fexp64; lia).
  reflexivity.
Qed.

(** *** Normal results *)

Lemma binary_round_aux_normal (sx : bool) (mx ex : Z) (lx : location) :
  0 < mx -> ex <= fexp (Zdigits2 mx + ex) ->
  -1074 <= Zdigits2 mx + ex - 53 ->
  normal sx (Zdigits2 mx + ex - 53)
    (binary_round_aux F64.prec F64.emax sx mx ex lx).
Proof.
  intros Hmx Hpre Hlin. rewrite binary_round_aux_pack. cbv zeta.
  destruct (shr_fexp_spec mx ex lx ltac:(lia) Hpre) as [Hm1 He1].
  destruct (shr_fexp F64.prec F64.emax mx ex lx) as [mrs1 e1].
  cbn [fst snd] in *.
  set (m1 := shr_m mrs1) in *.
  set (m1' := round_nearest_even m1 (loc_of_shr_record mrs1)).
  assert (He1v : e1 = Zdigits2 mx + ex - 53) by (rewrite He1, fexp64; lia).
  assert (Hm1pos : 0 < m1).
  { rewrite Hm1.
    replace (fexp (Zdigits2 mx + ex) - ex) with (Zdigits2 mx - 53)
      by (rewrite fexp64; lia).
    rewrite Z.shiftr_div_pow2 by (rewrite fexp64 in Hpre; lia).
    apply Z.div_str_pos. split; [apply Z.pow_pos_nonneg; rewrite fexp64 in Hpre; lia|].
    eapply Z.le_trans; [|apply pow2_digits_le; exact Hmx].
    apply Z.pow_le_mono_r; lia. }
  assert (Hd1 : Zdigits2 m1 = 53).
  { rewrite Hm1, Zdigits2_shiftr;
      [rewrite fexp64; lia | lia | lia | rewrite <- Hm1; exact Hm1pos]. }
  assert (Hm1' : m1' = m1 \/ m1' = m1 + 1) by apply round_nearest_even_cases.
  pose proof (Zdigits2_succ m1 Hm1pos) as Hsucc.
  assert (Hd1' : 53 <= Zdigits2 m1' <= 54) by (destruct Hm1' as [->| ->]; lia).
  assert (Hm1'pos : 0 < m1') by lia.
  clearbody m1'.
  destruct (shr_fexp_spec m1' e1 loc_Exact ltac:(lia) ltac:(rewrite fexp64; lia))
    as [Hm2 He2].
  destruct (shr_fexp F64.prec F64.emax m1' e1 loc_Exact) as [mrs2 e2].
  cbn [fst snd] in *. unfold pack.
  assert (Hk : fexp (Zdigits2 m1' + e1) - e1 = Zdigits2 m1' - 53)
    by (rewrite fexp64; lia).
  rewrite Hk in Hm2.
  assert (He2v : e2 = e1 + (Zdigits2 m1' - 53)) by lia.
  assert (Hm2pos : 0 < shr_m mrs2).
  { rewrite Hm2, Z.shiftr_div_pow2 by lia.
    apply Z.div_str_pos. split; [apply Z.pow_pos_nonneg; lia|].
    eapply Z.le_trans; [|apply pow2_digits_le; exact Hm1'pos].
    apply Z.pow_le_mono_r; lia. }
  assert (Hd2 : Zdigits2 (shr_m mrs2) = 53).
  { rewrite Hm2, Zdigits2_shiftr;
      [lia | lia | lia | rewrite <- Hm2; exact Hm2pos]. }
  destruct (shr_m mrs2) as [|p|p]; try lia.
  change (F64.emax - F64.prec) with 971.
  destruct (Z.leb_spec e2 971) as [Hle|Hgt].
  - constructor; [|exact Hd2|lia].
    apply canonical_intro; [rewrite Hd2, fexp64; lia|].
    change (F64.emax - F64.prec) with 971. exact Hle.
  - constructor.
Qed.

(** *** The position of a remainder *)

Lemma new_location_spec (d r : Z) :
  new_location d r = if r =? 0 then loc_Exact else loc_Inexact (2 * r ?= d).
Proof.
  unfold new_location, new_location_even, new_location_odd.
  destruct (Z.even d) eqn:Hev; [reflexivity|].
  destruct (r =? 0); [reflexivity|]. f_equal.
  destruct (Z.compare_spec (2 * r + 1) d) as [H1|H1|H1],
           (Z.compare_spec (2 * r) d) as [H2|H2|H2];
    try reflexivity; try lia.
  subst d. rewrite Z.even_mul in Hev. discriminate Hev.
Qed.

Lemma div_eucl_div_mod (a b : Z) : Z.div_eucl a b = (a / b, a mod b).
Proof. unfold Z.div, Z.modulo. destruct (Z.div_eucl a b). reflexivity. Qed.

(** Dividing twice the dividend: the quotient gets one more bit, which is
    the rounding bit of the former quotient. *)
Lemma shr_1_doubled (N d : Z) :
  0 <= N -> 0 < d ->
  shr_1 (shr_record_of_loc (2 * N / d) (new_location d ((2 * N) mod d))) =
  shr_record_of_loc (N / d) (new_location d (N mod d)).
Proof.
  intros HN Hd.
  pose proof (Z.div_mod N d ltac:(lia)) as Hdm.
  pose proof (Z.mod_pos_bound N d Hd) as Hr.
  pose proof (Z.div_pos N d HN Hd) as Hq.
  set (q := N / d) in *. set (r := N mod d) in *.
  rewrite !new_location_spec.
  destruct (Z.lt_ge_cases (2 * r) d) as [Hlt|Hge].
  - assert (Hq2 : 2 * N / d = 2 * q).
    { symmetry. apply (Z.div_unique _ _ _ (2 * r)); lia. }
    assert (Hr2 : (2 * N) mod d = 2 * r).
    { symmetry. apply (Z.mod_unique _ _ (2 * q)); lia. }
    rewrite Hq2, Hr2.
    destruct (Z.compare_spec (2 * r) d) as [H|H|H]; try lia.
    destruct (Z.eqb_spec r 0) as [H0|H0].
    + rewrite H0. simpl. destruct q as [|p|p]; try lia; reflexivity.
    + destruct (Z.eqb_spec (2 * r) 0) as [H0'|H0']; [lia|].
      destruct (Z.compare_spec (2 * (2 * r)) d);
        destruct q as [|p|p]; try lia; reflexivity.
  - assert (Hq2 : 2 * N / d = 2 * q + 1).
    { symmetry. apply (Z.div_unique _ _ _ (2 * r - d)); lia. }
    assert (Hr2 : (2 * N) mod d = 2 * r - d).
    { symmetry. apply (Z.mod_unique _ _ (2 * q + 1)); lia. }
    rewrite Hq2, Hr2.
    destruct (Z.eqb_spec r 0) as [H0|H0]; [lia|].
    destruct (Z.compare_spec (2 * r) d) as [H|H|H]; try lia.
    + destruct (Z.eqb_spec (2 * r - d) 0) as [H0'|H0']; [|lia].
      destruct q as [|p|p]; try lia; reflexivity.
    + destruct (Z.eqb_spec (2 * r - d) 0) as [H0'|H0']; [lia|].
      destruct (Z.compare_spec (2 * (2 * r - d)) d);
        destruct q as [|p|p]; try lia; reflexivity.
Qed.

Lemma Zdigits2_le (m k : Z) : 0 < m -> m < 2 ^ k -> Zdigits2 m <= k.
Proof.
  intros Hm Hk. rewrite Zdigits2_log2 by assumption.
  apply Z.log2_lt_pow2 in Hk; lia.
Qed.

Lemma Zdigits2_double (m : positive) :
  Zdigits2 (Z.pos m~0) = Zdigits2 (Z.pos m) + 1.
Proof. simpl. lia. Qed.

(** One more bit in the mantissa, shifted out at once, is the same as
    one more unit in the exponent. *)
Lemma binary_round_aux_halve (sx : bool) (m2 m e : Z) (l2 l : location) :
  Zdigits2 m2 = Zdigits2 m + 1 ->
  fexp (Zdigits2 m + (e + 1)) = e + 1 ->
  shr_1 (shr_record_of_loc m2 l2) = shr_record_of_loc m l ->
  binary_round_aux F64.prec F64.emax sx m2 e l2 =
  binary_round_aux F64.prec F64.emax sx m (e + 1) l.
Proof.
  intros Hd He Hshr. unfold binary_round_aux, shr_fexp. rewrite Hd.
  replace (Zdigits2 m + 1 + e) with (Zdigits2 m + (e + 1)) by lia.
  rewrite He. replace (e + 1 - e) with 1 by lia.
  replace (e + 1 - (e + 1)) with 0 by lia.
  unfold shr at 1 3. cbn [iter_pos]. rewrite Hshr. reflexivity.
Qed.

Lemma SFdiv_core_eq (mx my : positive) (ex ey e' : Z) :
  e' = Z.min (fexp (Zdigits2 (Z.pos mx) + ex - (Zdigits2 (Z.pos my) + ey))) (ex - ey) ->
  SFdiv_core_binary F64.prec F64.emax (Z.pos mx) ex (Z.pos my) ey =
  (Z.pos mx * 2 ^ (ex - ey - e') / Z.pos my, e',
   new_location (Z.pos my) ((Z.pos mx * 2 ^ (ex - ey - e')) mod Z.pos my)).
Proof.
  intros He'. unfold SFdiv_core_binary. rewrite <- He'.
  set (s := ex - ey - e').
  assert (Hs : 0 <= s) by (unfold s; lia).
  set (m' := match s with Z.pos _ => Z.shiftl (Z.pos mx) s | 0 => Z.pos mx | Z.neg _ => 0 end).
  assert (Hm' : m' = Z.pos mx * 2 ^ s).
  { unfold m'. destruct s as [|p|p];
      [ rewrite Z.pow_0_r, Z.mul_1_r; reflexivity
      | apply Z.shiftl_mul_pow2; lia
      | lia ]. }
  rewrite Hm', div_eucl_div_mod. reflexivity.
Qed.

Lemma normal_weaken (sx : bool) (elo elo' : Z) (x : spec_float) :
  elo' <= elo -> normal sx elo x -> normal sx elo' x.
Proof.
  intros Hle [|m e Hb Hd He]; constructor; try assumption. lia.
Qed.

Lemma pow2_lt_inv (a b : Z) : 0 <= b -> 2 ^ a < 2 ^ b -> a < b.
Proof. intros Hb H. apply (Z.pow_lt_mono_r_iff 2); [lia | exact Hb | exact H]. Qed.

(** *** Division of a doubled dividend, for a quotient in the normal range *)

Lemma SFdiv_doubled (sx sy : bool) (mx mx2 my : positive) (ex ex2 ey : Z) :
  Zdigits2 (Z.pos mx) <= 53 ->
  (mx2 = mx /\ ex2 = ex + 1) \/
  (mx2 = (mx~0)%positive /\ ex2 = ex /\ Zdigits2 (Z.pos mx) <= 52) ->
  Z.pos my * 2 ^ (ey - 1022 - Z.min ex (ey - 1022)) <=
    Z.pos mx * 2 ^ (ex - Z.min ex (ey - 1022)) ->
  normal (xorb sx sy) (-1074)
    (SFdiv F64.prec F64.emax (S754_finite sx mx ex) (S754_finite sy my ey)) /\
  SFdiv F64.prec F64.emax (S754_finite sx mx2 ex2) (S754_finite sy my ey) =
  double_exp (SFdiv F64.prec F64.emax (S754_finite sx mx ex) (S754_finite sy my ey)).
Proof.
  intros Hdx53 Hrep Hq.
  cbv beta iota delta [SFdiv].
  rewrite (SFdiv_core_eq mx my ex ey _ eq_refl),
          (SFdiv_core_eq mx2 my ex2 ey _ eq_refl).
  assert (Hdx2 : Zdigits2 (Z.pos mx2) + ex2 = Zdigits2 (Z.pos mx) + ex + 1).
  { destruct Hrep as [[-> ->]|(-> & -> & _)]; [lia | rewrite Zdigits2_double; lia]. }
  replace (Zdigits2 (Z.pos mx2) + ex2 - (Zdigits2 (Z.pos my) + ey))
    with (Zdigits2 (Z.pos mx) + ex - (Zdigits2 (Z.pos my) + ey) + 1) by lia.
  clear Hdx2.
  assert (Hmx_lo : 2 ^ (Zdigits2 (Z.pos mx) - 1) <= Z.pos mx)
    by (apply pow2_digits_le; lia).
  assert (Hmx_hi : Z.pos mx < 2 ^ Zdigits2 (Z.pos mx)) by (apply digits_lt_pow2; lia).
  assert (Hmy_lo : 2 ^ (Zdigits2 (Z.pos my) - 1) <= Z.pos my)
    by (apply pow2_digits_le; lia).
  assert (Hmy_hi : Z.pos my < 2 ^ Zdigits2 (Z.pos my)) by (apply digits_lt_pow2; lia).
  assert (Hdx1 : 1 <= Zdigits2 (Z.pos mx)) by (simpl; lia).
  assert (Hdy1 : 1 <= Zdigits2 (Z.pos my)) by (simpl; lia).
  set (dx := Zdigits2 (Z.pos mx)) in *. set (dy := Zdigits2 (Z.pos my)) in *.
  clearbody dx dy.
  set (a := ey - 1022 - Z.min ex (ey - 1022)) in *.
  set (b := ex - Z.min ex (ey - 1022)) in *.
  assert (Ha : 0 <= a) by (unfold a; lia).
  assert (Hb : 0 <= b) by (unfold b; lia).
  assert (Hab : a - b = ey - 1022 - ex) by (unfold a, b; lia).
  clearbody a b.
  assert (H2a : 0 < 2 ^ a) by (apply Z.pow_pos_nonneg; lia).
  assert (H2b : 0 < 2 ^ b) by (apply Z.pow_pos_nonneg; lia).
  set (t := dx + ex - (dy + ey)).
  (* the quotient is at least 2^-1022, so its exponent is at least -1022 *)
  assert (Ht : -1022 <= t).
  { assert (H : 2 ^ (dy - 1 + a) < 2 ^ (dx + b)).
    { rewrite (Z.pow_add_r 2 (dy - 1) a), (Z.pow_add_r 2 dx b) by lia.
      assert (0 < 2 ^ (dy - 1)) by (apply Z.pow_pos_nonneg; lia).
      assert (2 ^ (dy - 1) * 2 ^ a <= Z.pos my * 2 ^ a)
        by (apply Z.mul_le_mono_nonneg_r; lia).
      assert (Z.pos mx * 2 ^ b < 2 ^ dx * 2 ^ b)
        by (apply Z.mul_lt_mono_pos_r; lia).
      lia. }
    apply pow2_lt_inv in H; [|lia]. unfold t. lia. }
  assert (Hexey : -1074 <= ex - ey).
  { assert (H : 2 ^ a < 2 ^ (53 + b)).
    { rewrite (Z.pow_add_r 2 53 b) by lia.
      assert (2 ^ dx <= 2 ^ 53) by (apply Z.pow_le_mono_r; lia).
      assert (1 * 2 ^ a <= Z.pos my * 2 ^ a)
        by (apply Z.mul_le_mono_nonneg_r; lia).
      assert (Z.pos mx * 2 ^ b < 2 ^ 53 * 2 ^ b)
        by (apply Z.mul_lt_mono_pos_r; lia).
      lia. }
    apply pow2_lt_inv in H; lia. }
  destruct (Z.eq_dec t (-1022)) as [HtB|HtL].
  - (* the lowest normal binade *)
    replace (Z.min (fexp t) (ex - ey)) with (-1074) by (rewrite fexp64; lia).
    replace (Z.min (fexp (t + 1)) (ex2 - ey)) with (-1074)
      by (rewrite fexp64; destruct Hrep as [[_ ->]|(_ & -> & _)]; lia).
    set (s := ex - ey - -1074).
    assert (Hs : 0 <= s) by (unfold s; lia).
    assert (H2s : 0 < 2 ^ s) by (apply Z.pow_pos_nonneg; lia).
    set (N := Z.pos mx * 2 ^ s).
    assert (HN2 : Z.pos mx2 * 2 ^ (ex2 - ey - -1074) = 2 * N).
    { unfold N. destruct Hrep as [[-> ->]|(-> & -> & _)].
      - replace (ex + 1 - ey - -1074) with (Z.succ s) by (unfold s; lia).
        rewrite Z.pow_succ_r by lia. lia.
      - fold s. change (Z.pos mx~0) with (2 * Z.pos mx). lia. }
    rewrite HN2. clear HN2.
    assert (HNlo : Z.pos my * 2 ^ 52 <= N).
    { assert (HNa : N * 2 ^ a = Z.pos mx * 2 ^ b * 2 ^ 52).
      { unfold N. rewrite <- !Z.mul_assoc, <- !Z.pow_add_r by lia.
        do 2 f_equal. unfold s. lia. }
      assert (Z.pos my * 2 ^ a * 2 ^ 52 <= Z.pos mx * 2 ^ b * 2 ^ 52)
        by (apply Z.mul_le_mono_nonneg_r; lia).
      apply (Z.mul_le_mono_pos_r _ _ (2 ^ a)); lia. }
    assert (HNhi : N < Z.pos my * 2 ^ 53).
    { assert (H : 2 ^ (dx + s) = 2 ^ (dy - 1) * 2 ^ 53).
      { rewrite <- Z.pow_add_r by lia. f_equal. unfold s, t in *. lia. }
      assert (N < 2 ^ dx * 2 ^ s)
        by (unfold N; apply Z.mul_lt_mono_pos_r; lia).
      rewrite <- Z.pow_add_r in H0 by lia.
      assert (2 ^ (dy - 1) * 2 ^ 53 <= Z.pos my * 2 ^ 53)
        by (apply Z.mul_le_mono_nonneg_r; lia).
      lia. }
    assert (HN0 : 0 <= N) by (unfold N; lia).
    clearbody N.
    assert (Hqlo : 2 ^ 52 <= N / Z.pos my)
      by (apply Z.div_le_lower_bound; lia).
    assert (Hqhi : N / Z.pos my < 2 ^ 53)
      by (apply Z.div_lt_upper_bound; lia).
    assert (Hq2lo : 2 ^ 53 <= 2 * N / Z.pos my).
    { apply Z.div_le_lower_bound; [lia|]. change (2 ^ 53) with (2 * 2 ^ 52). lia. }
    assert (Hq2hi : 2 * N / Z.pos my < 2 ^ 54).
    { apply Z.div_lt_upper_bound; [lia|]. change (2 ^ 54) with (2 * 2 ^ 53). lia. }
    assert (Hdq : Zdigits2 (N / Z.pos my) = 53).
    { pose proof (Zdigits2_ge (N / Z.pos my) 52 ltac:(lia) Hqlo).
      pose proof (Zdigits2_le (N / Z.pos my) 53 ltac:(lia) Hqhi). lia. }
    assert (Hdq2 : Zdigits2 (2 * N / Z.pos my) = 54).
    { pose proof (Zdigits2_ge (2 * N / Z.pos my) 53 ltac:(lia) Hq2lo).
      pose proof (Zdigits2_le (2 * N / Z.pos my) 54 ltac:(lia) Hq2hi). lia. }
    pose proof (shr_1_doubled N (Z.pos my) HN0 ltac:(lia)) as Hshr.
    set (q := N / Z.pos my) in *. set (l := new_location (Z.pos my) (N mod Z.pos my)) in *.
    set (q2 := 2 * N / Z.pos my) in *.
    set (l2 := new_location (Z.pos my) ((2 * N) mod Z.pos my)) in *.
    clearbody q l q2 l2.
    assert (Hpre : -1074 <= fexp (Zdigits2 q + -1074)) by (rewrite fexp64; lia).
    split.
    + replace (-1074) with (Zdigits2 q + -1074 - 53) at 1 by lia.
      apply binary_round_aux_normal; [lia | exact Hpre | lia].
    + rewrite (binary_round_aux_halve _ q2 q (-1074) l2 l);
        [ | lia | rewrite fexp64; lia | exact Hshr ].
      apply binary_round_aux_succ_exp; [lia | exact Hpre | lia].
  - (* above it *)
    replace (Z.min (fexp t) (ex - ey)) with (t - 53)
      by (rewrite fexp64; unfold t in *; lia).
    replace (Z.min (fexp (t + 1)) (ex2 - ey)) with (t - 53 + 1)
      by (rewrite fexp64; unfold t in *;
          destruct Hrep as [[_ ->]|(_ & -> & ?)]; lia).
    set (s := ex - ey - (t - 53)).
    assert (Hsv : s = 53 - dx + dy) by (unfold s, t; lia).
    assert (Hs : 1 <= s) by lia.
    assert (H2s : 0 < 2 ^ s) by (apply Z.pow_pos_nonneg; lia).
    set (N := Z.pos mx * 2 ^ s).
    assert (HN2 : Z.pos mx2 * 2 ^ (ex2 - ey - (t - 53 + 1)) = N).
    { unfold N. destruct Hrep as [[-> ->]|(-> & -> & ?)].
      - f_equal. f_equal. unfold s. lia.
      - replace s with (Z.succ (ex - ey - (t - 53 + 1))) by (unfold s; lia).
        rewrite Z.pow_succ_r by (unfold s, t in *; lia).
        change (Z.pos mx~0) with (2 * Z.pos mx). lia. }
    rewrite HN2. clear HN2.
    assert (HNlo : Z.pos my * 2 ^ 52 <= N).
    { assert (H : 2 ^ (dx - 1 + s) = 2 ^ dy * 2 ^ 52).
      { rewrite <- Z.pow_add_r by lia. f_equal. lia. }
      assert (2 ^ (dx - 1) * 2 ^ s <= N)
        by (unfold N; apply Z.mul_le_mono_nonneg_r; lia).
      rewrite <- Z.pow_add_r in H0 by lia.
      assert (Z.pos my * 2 ^ 52 <= 2 ^ dy * 2 ^ 52)
        by (apply Z.mul_le_mono_nonneg_r; lia).
      lia. }
    clearbody N.
    assert (Hqlo : 2 ^ 52 <= N / Z.pos my)
      by (apply Z.div_le_lower_bound; lia).
    pose proof (Zdigits2_ge (N / Z.pos my) 52 ltac:(lia) Hqlo) as Hdq.
    set (q := N / Z.pos my) in *. set (l := new_location (Z.pos my) (N mod Z.pos my)).
    clearbody q l.
    assert (Hpre : t - 53 <= fexp (Zdigits2 q + (t - 53))) by (rewrite fexp64; lia).
    split.
    + apply normal_weaken with (elo := Zdigits2 q + (t - 53) - 53); [lia|].
      apply binary_round_aux_normal; [lia | exact Hpre | lia].
    + apply binary_round_aux_succ_exp; [lia | exact Hpre | lia].
Qed.

Lemma SFmul_two_normal (sx : bool) (elo : Z) (x : spec_float) :
  normal sx elo x -> SFmul F64.prec F64.emax two x = double_exp x.
Proof.
  intros [|m e Hb Hd He]; [reflexivity|]. apply SFmul_two; assumption.
Qed.

(** Multiplication of a normal double by a constant that is at least two. *)
Lemma SFmul_normal_doubled (sx : bool) (x : spec_float)
    (sk : bool) (mk : positive) (ek : Z) :
  normal sx (-1074) x ->
  bounded F64.prec F64.emax mk ek = true ->
  Zdigits2 (Z.pos mk) = 53 -> -51 <= ek ->
  normal (xorb sx sk) (-1074) (SFmul F64.prec F64.emax x (S754_finite sk mk ek)) /\
  SFmul F64.prec F64.emax (double_exp x) (S754_finite sk mk ek) =
  double_exp (SFmul F64.prec F64.emax x (S754_finite sk mk ek)).
Proof.
  intros [|m e Hb Hd He] Hk Hdk Hek.
  - split; [constructor | reflexivity].
  - destruct (SFmul_finite_rounds sx sk m mk e ek Hb Hk) as [Hpre _].
    pose proof (Zdigits2_mul m mk) as Hmul. rewrite Hd, Hdk in Hmul.
    assert (Hn : normal (xorb sx sk) (Zdigits2 (Z.pos (m * mk)) + (e + ek) - 53)
                   (SFmul F64.prec F64.emax (S754_finite sx m e) (S754_finite sk mk ek))).
    { cbv beta iota delta [SFmul]. apply binary_round_aux_normal; [lia | exact Hpre | lia]. }
    split.
    + eapply normal_weaken; [|exact Hn]. lia.
    + unfold double_exp at 1. change (F64.emax - F64.prec) with 971.
      destruct (Z.leb_spec (e + 1) 971) as [Hle|Hgt].
      * apply SFmul_succ_exp; [exact Hb | exact Hk | lia].
      * pose proof (bounded_inv _ _ Hb) as (_ & _ & He971 & _).
        destruct Hn as [|m' e' Hb' Hd' He'].
        -- reflexivity.
        -- pose proof (bounded_inv _ _ Hb') as (_ & _ & He'971 & _). lia.
Qed.

Local Open Scope js_scope.

(** ** The range *)

(** C2, as stated, fails: for 14 days, control revenue 1200 and variant
    revenue 1000 (a valid input) the raw value is negative, and so
    [lowerRange] (about -2737.5) is above [upperRange] (about -3910.7). *)
Lemma range_order_counterexample :
  let s := inputState (F64.of_Z 14) (F64.of_Z 1200) (F64.of_Z 1000) in
  F64.ltb #0 (experimentDays s) = true /\
  (#0 <=? controlRevenue s) = true /\
  (#0 <=? variantRevenue s) = true /\
  exists s',
    projectionEffect 14 s = Some s' /\
    lowerRange (annualProjection s') = S754_finite true 6019826162073600 (-41) /\
    upperRange (annualProjection s') = S754_finite true 8599751660105144 (-41) /\
    (lowerRange (annualProjection s') <=? upperRange (annualProjection s')) = false.
Proof.
  intros s. do 3 (split; [vm_compute; reflexivity|]).
  eexists. split; [vm_compute; reflexivity|].
  repeat split.
Qed.

Lemma positive_real_finite (d : F64.float) :
  F64.is_real d = true -> F64.ltb #0 d = true ->
  exists md ed, d = S754_finite false md ed.
Proof.
  destruct d as [s|s| |s m e]; intros Hr Hp; try discriminate Hr;
    destruct s; try (vm_compute in Hp; discriminate Hp).
  eauto.
Qed.

Lemma raw_value_signed (sx : bool) (diff : spec_float) (md : positive) (ed : Z) :
  signed sx diff ->
  signed sx (diff / S754_finite false md ed * F64.of_Z 365 * F64.of_dec 75 100).
Proof.
  intros Hdiff.
  change (F64.of_Z 365) with (S754_finite false 6421147906211840 (-44)).
  change (F64.of_dec 75 100) with (S754_finite false 6755399441055744 (-53)).
  cbn [num_mul num_div F64.arith].
  apply SFmul_signed; [|reflexivity].
  apply SFmul_signed; [|reflexivity].
  apply SFdiv_signed, Hdiff.
Qed.

(** C2, amended.  For every [experimentDays > 0] the effect leaves
    [upperRange = rawValue * 0.75] (which is also [0.75 * rawValue]) and
    [lowerRange = upperRange * 0.7].  For real, non-negative revenues,
    [lowerRange <= upperRange] holds when the variant revenue is at least
    the control revenue; when it is at most the control revenue the order
    is the other one, [upperRange <= lowerRange]. *)
Theorem range_order (fuel : nat) (s : state F64.float) :
  F64.ltb #0 (experimentDays s) = true -> (14 <= fuel)%nat ->
  exists s',
    projectionEffect fuel s = Some s' /\
    let p := annualProjection s' in
    upperRange p = rawValue p * F64.of_dec 75 100 /\
    upperRange p = F64.of_dec 75 100 * rawValue p /\
    lowerRange p = upperRange p * F64.of_dec 7 10 /\
    (F64.is_real (experimentDays s) = true ->
     F64.valid (controlRevenue s) = true ->
     F64.is_real (controlRevenue s) = true ->
     F64.valid (variantRevenue s) = true ->
     F64.is_real (variantRevenue s) = true ->
     (#0 <=? controlRevenue s) = true ->
     (#0 <=? variantRevenue s) = true ->
     ((controlRevenue s <=? variantRevenue s) = true ->
      (lowerRange p <=? upperRange p) = true) /\
     ((variantRevenue s <=? controlRevenue s) = true ->
      (upperRange p <=? lowerRange p) = true)).
Proof.
  intros Hd Hfuel. exists (recomputed s).
  split; [apply projectionEffect_runs; auto using positive_not_le_zero|].
  cbv zeta. split; [reflexivity|]. split; [apply SFmul_comm|].
  split; [reflexivity|].
  intros Hrd Hvc Hrc Hvv Hrv H0c H0v.
  destruct (positive_real_finite _ Hrd Hd) as (md & ed & Hdays).
  unfold recomputed, computeProjection. cbn [annualProjection lowerRange upperRange].
  rewrite Hdays. split; intros Hord.
  - apply mul_seven_tenths_nonneg_le, raw_value_signed.
    apply SFsub_nonneg; assumption.
  - apply mul_seven_tenths_nonpos_ge, raw_value_signed.
    apply SFsub_nonpos; assumption.
Qed.

(** 14 days, control revenue 1000, variant revenue 1200. *)
Lemma range_order_witness :
  exists s',
    projectionEffect 14 (initialState (num := F64.float)) = Some s' /\
    (lowerRange (annualProjection s') <=? upperRange (annualProjection s')) = true.
Proof.
  destruct (range_order 14 initialState) as (s' & Hrun & _ & _ & _ & Hord);
    [vm_compute; reflexivity | lia |].
  exists s'. split; [exact Hrun|].
  destruct Hord as [Hle _]; try (vm_compute; reflexivity).
  apply Hle. vm_compute. reflexivity.
Defined.

(** ** Scaling of the raw annual value *)

(** C9, as stated, fails in the arithmetic of the code.  With 14 days and
    control revenue 0, a variant revenue of 600 is three times one of 200,
    but the raw value for 600 is not three times the raw value for 200
    (the last bits differ), and the raw value for 300 is not the sum of
    those for 200 and 100.  Doubling itself breaks among subnormals: with
    2 days and the difference [3 * 2^-1074], the raw value of the doubled
    difference is [1095 * 2^-1074], not twice [730 * 2^-1074].

    The same holds for [1 / experimentDays]: 42 days are three times 14
    days, and [1 / 42] is the double [1 / 14 / 3], but the raw value for
    42 days is not the raw value for 14 days divided by three.

    Two more cases mark the limits of exact doubling.  With the
    difference [(2^53 - 1) * 2^-1074] and 2 days the quotient is rounded
    up to the least normal double [2^-1022], from just below it, and
    doubling fails.  With the difference [2^1023] the doubled difference
    is not finite, so the raw value computed from it is infinite, while
    twice the raw value for [2^1023] over 1024 days is finite. *)
Lemma raw_value_linearity_counterexample :
  let raw days diff :=
    rawValue (computeProjection days (F64.of_Z 0) diff) in
  F64.of_Z 600 - F64.of_Z 0 = #3 * (F64.of_Z 200 - F64.of_Z 0) /\
  raw (F64.of_Z 14) (F64.of_Z 600) = S754_finite false 8599751660105142 (-39) /\
  #3 * raw (F64.of_Z 14) (F64.of_Z 200) = S754_finite false 8599751660105144 (-39) /\
  raw (F64.of_Z 14) (F64.of_Z 600) <> #3 * raw (F64.of_Z 14) (F64.of_Z 200) /\
  raw (F64.of_Z 14) (F64.of_Z 300) <>
    raw (F64.of_Z 14) (F64.of_Z 200) + raw (F64.of_Z 14) (F64.of_Z 100) /\
  (let tiny := S754_finite false 3 (-1074) in
   F64.valid tiny = true /\
   raw (F64.of_Z 2) (#2 * tiny) = S754_finite false 1095 (-1074) /\
   #2 * raw (F64.of_Z 2) tiny = S754_finite false 1460 (-1074) /\
   raw (F64.of_Z 2) (#2 * tiny) <> #2 * raw (F64.of_Z 2) tiny) /\
  (F64.of_Z 42 = F64.of_Z 3 * F64.of_Z 14 /\
   F64.of_Z 1 / F64.of_Z 42 = F64.of_Z 1 / F64.of_Z 14 / F64.of_Z 3 /\
   raw (F64.of_Z 42) (F64.of_Z 200) = S754_finite false 7644223697871238 (-42) /\
   raw (F64.of_Z 14) (F64.of_Z 200) / F64.of_Z 3 =
     S754_finite false 7644223697871239 (-42) /\
   raw (F64.of_Z 42) (F64.of_Z 200) <> raw (F64.of_Z 14) (F64.of_Z 200) / F64.of_Z 3) /\
  (let edge := S754_finite false 9007199254740991 (-1074) in
   F64.valid edge = true /\
   normal_quotient (edge - F64.of_Z 0) (F64.of_Z 2) = false /\
   (edge - F64.of_Z 0) / F64.of_Z 2 = S754_finite false 4503599627370496 (-1074) /\
   raw (F64.of_Z 2) (#2 * edge) = S754_finite false 6421147906211839 (-1065) /\
   #2 * raw (F64.of_Z 2) edge = S754_finite false 6421147906211840 (-1065) /\
   raw (F64.of_Z 2) (#2 * edge) <> #2 * raw (F64.of_Z 2) edge) /\
  (let big := S754_finite false 4503599627370496 971 in
   F64.valid big = true /\ F64.valid (SFopp big) = true /\
   big - SFopp big = #2 * (big - F64.of_Z 0) /\
   F64.is_real (big - SFopp big) = false /\
   normal_quotient (big - F64.of_Z 0) (F64.of_Z 1024) = true /\
   rawValue (computeProjection (F64.of_Z 1024) (SFopp big) big) =
     S754_infinity false /\
   #2 * raw (F64.of_Z 1024) big = S754_finite false 6421147906211840 970 /\
   rawValue (computeProjection (F64.of_Z 1024) (SFopp big) big) <>
     #2 * raw (F64.of_Z 1024) big).
Proof.
  intros raw.
  repeat split; try (vm_compute; reflexivity); vm_compute; discriminate.
Qed.

(** A positive duration is [+Infinity] or a positive finite double. *)
Lemma positive_cases (d : F64.float) :
  F64.ltb #0 d = true ->
  d = S754_infinity false \/ exists md ed, d = S754_finite false md ed.
Proof.
  destruct d as [s|s| |s m e]; intros Hp;
    try destruct s; try (vm_compute in Hp; discriminate Hp); eauto.
Qed.

(** Doubling the difference, in binary64. *)
Lemma raw_value_doubles (days control variant control' variant' : F64.float) :
  F64.valid control = true -> F64.valid variant = true ->
  F64.ltb #0 days = true ->
  variant' - control' = #2 * (variant - control) ->
  F64.is_real (variant' - control') = true ->
  is_zero (variant - control) || normal_quotient (variant - control) days = true ->
  rawValue (computeProjection days control' variant') =
  #2 * rawValue (computeProjection days control variant).
Proof.
  intros Hvc Hvv Hd Hdiff Hreal Hq.
  unfold computeProjection. cbn [rawValue]. rewrite Hdiff in *. clear Hdiff.
  cbn [num_mul num_div num_sub num_int F64.arith] in *.
  change (F64.of_Z 2) with two in *.
  change (F64.of_Z 365) with (S754_finite false 6421147906211840 (-44)).
  pose proof (SFsub_valid _ _ Hvv Hvc) as Hvalid.
  destruct (SFsub F64.prec F64.emax variant control) as [s|s| |sd m e].
  - destruct (positive_cases _ Hd) as [->|(md & ed & ->)]; destruct s; reflexivity.
  - discriminate Hreal.
  - discriminate Hreal.
  - cbn [is_zero orb] in Hq.
    destruct (positive_cases _ Hd) as [->|(md & ed & ->)]; [discriminate Hq|].
    cbn [normal_quotient] in Hq. cbv zeta in Hq.
    apply Z.leb_le in Hq. cbn [F64.valid valid_binary] in Hvalid.
    pose proof (bounded_inv _ _ Hvalid) as (_ & Hdm & He & Hn).
    assert (Hrep : exists mx2 ex2,
               SFmul F64.prec F64.emax two (S754_finite sd m e) =
                 S754_finite sd mx2 ex2 /\
               ((mx2 = m /\ ex2 = (e + 1)%Z) \/
                (mx2 = (m~0)%positive /\ ex2 = e /\
                 (Zdigits2 (Z.pos m) <= 52)%Z))).
    { destruct (Z.eq_dec (Zdigits2 (Z.pos m)) 53) as [H53|Hlt].
      - rewrite (SFmul_two _ _ _ Hvalid H53) in *. unfold double_exp in *.
        destruct (e + 1 <=? F64.emax - F64.prec)%Z; [|discriminate Hreal].
        exists m, (e + 1)%Z. auto.
      - rewrite (SFmul_two_subnormal _ _ _ Hvalid) by lia.
        exists (m~0)%positive, e. split; [reflexivity|]. right. repeat split. lia. }
    destruct Hrep as (mx2 & ex2 & -> & Hrep).
    destruct (SFdiv_doubled sd false m mx2 md e ex2 ed ltac:(lia) Hrep Hq)
      as [HnQ ->].
    destruct (SFmul_normal_doubled _ _ false 6421147906211840 (-44) HnQ
                eq_refl eq_refl ltac:(lia)) as [HnR ->].
    symmetry. eapply SFmul_two_normal. exact HnR.
Qed.

(** The formula over the rationals: [rawValue = (variant - control) *
    (1 / days) * 365]. *)
Lemma raw_value_exact (days control variant : Q) :
  (rawValue (computeProjection days control variant) ==
   (variant - control) * (1 / days) * 365)%Q.
Proof.
  unfold computeProjection. cbn [rawValue]. simpl. unfold Qdiv. ring.
Qed.

(** C9, amended.  In the arithmetic of the code, for a positive duration
    and well-formed revenues, doubling the difference of the revenues
    exactly doubles the raw annual value whenever the doubled difference
    is finite and the difference is zero or its quotient by the duration,
    before rounding, has magnitude at least [2^-1022], the least normal
    double.  Read over the rationals, the raw annual value is linear in
    the difference (homogeneous and additive) and in [1 / days]. *)
Theorem raw_value_scaling :
  (forall days control variant control' variant' : F64.float,
     F64.valid control = true -> F64.valid variant = true ->
     F64.ltb #0 days = true ->
     variant' - control' = #2 * (variant - control) ->
     F64.is_real (variant' - control') = true ->
     is_zero (variant - control) || normal_quotient (variant - control) days
       = true ->
     rawValue (computeProjection days control' variant') =
     #2 * rawValue (computeProjection days control variant)) /\
  (forall days control variant control' variant' k : Q,
     0 < days ->
     variant' - control' == k * (variant - control) ->
     rawValue (computeProjection days control' variant') ==
     k * rawValue (computeProjection days control variant))%Q /\
  (forall days c v c1 v1 c2 v2 : Q,
     0 < days ->
     v - c == (v1 - c1) + (v2 - c2) ->
     rawValue (computeProjection days c v) ==
     rawValue (computeProjection days c1 v1) +
     rawValue (computeProjection days c2 v2))%Q /\
  (forall days days' control variant k : Q,
     0 < days -> 0 < days' ->
     1 / days' == k * (1 / days) ->
     rawValue (computeProjection days' control variant) ==
     k * rawValue (computeProjection days control variant))%Q.
Proof.
  split; [exact raw_value_doubles|]. split; [|split].
  - intros days control variant control' variant' k _ Hk.
    rewrite !raw_value_exact, Hk. ring.
  - intros days c v c1 v1 c2 v2 _ Hsum.
    rewrite !raw_value_exact, Hsum. ring.
  - intros days days' control variant k _ _ Hk.
    rewrite !raw_value_exact, Hk. ring.
Qed.

(** 14 days: a variant revenue of 1400 against 1000 doubles the
    difference of 1200 against 1000; equal revenues, whose difference is
    zero; and one day with the difference [(2^52 + 5) * 2^-1074], in the
    lowest normal binade. *)
Lemma raw_value_scaling_witness :
  rawValue (computeProjection (F64.of_Z 14) (F64.of_Z 1000) (F64.of_Z 1400)) =
  #2 * rawValue (computeProjection (F64.of_Z 14) (F64.of_Z 1000) (F64.of_Z 1200)) /\
  rawValue (computeProjection (F64.of_Z 14) (F64.of_Z 1000) (F64.of_Z 1000)) =
  #2 * rawValue (computeProjection (F64.of_Z 14) (F64.of_Z 1000) (F64.of_Z 1000)) /\
  rawValue (computeProjection (F64.of_Z 1) (F64.of_Z 0)
              (S754_finite false 4503599627370501 (-1073))) =
  #2 * rawValue (computeProjection (F64.of_Z 1) (F64.of_Z 0)
                   (S754_finite false 4503599627370501 (-1074))) /\
  (rawValue (computeProjection 14 1000 1600) ==
   3 * rawValue (computeProjection 14 1000 1200))%Q.
Proof.
  destruct raw_value_scaling as (Hdouble & Hscale & _ & _).
  split; [|split; [|split]].
  - apply Hdouble; vm_compute; reflexivity.
  - apply Hdouble; vm_compute; reflexivity.
  - apply Hdouble; vm_compute; reflexivity.
  - apply Hscale; vm_compute; reflexivity.
Defined.

(** * The component around the effect *)

(** ** The input handlers *)

(** Swapping the arguments of a comparison reverses its result. *)
Lemma SFcompare_antisym (x y : spec_float) :
  SFcompare y x = option_map CompOpp (SFcompare x y).
Proof.
  destruct x as [sx|sx| |sx mx ex], y as [sy|sy| |sy my ey];
    try (repeat match goal with b : bool |- _ => destruct b end; reflexivity).
  assert (Hm : Pos.compare_cont Eq my mx = CompOpp (Pos.compare_cont Eq mx my))
    by (symmetry; apply (Pos.compare_cont_antisym mx my Eq)).
  unfold SFcompare. rewrite (Z.compare_antisym ex ey), Hm.
  destruct sx, sy; simpl; try reflexivity;
    destruct (ex ?= ey)%Z; simpl; try reflexivity;
    destruct (Pos.compare_cont Eq mx my); reflexivity.
Qed.

Lemma SFltb_not_swapped (x y : spec_float) :
  SFltb x y = true -> SFltb y x = false.
Proof.
  unfold SFltb. rewrite (SFcompare_antisym x y).
  destruct (SFcompare x y) as [[]|]; simpl; congruence.
Qed.

(** Two numbers that compare equal, one of them being a given non-zero
    finite double, are the same double. *)
Lemma SFcompare_eq_finite (s : bool) (m : positive) (e : Z) (y : spec_float) :
  SFcompare (S754_finite s m e) y = Some Eq -> y = S754_finite s m e.
Proof.
  destruct y as [sy|sy| |sy my ey]; simpl;
    try (destruct s; discriminate); try (destruct sy; destruct s; discriminate).
  destruct s, sy; try discriminate;
    destruct (Z.compare_spec e ey) as [<-| |]; try discriminate;
    change (Pos.compare_cont Eq m my) with (m ?= my)%positive;
    destruct (Pos.compare_spec m my) as [<-| |]; simpl; try discriminate;
    reflexivity.
Qed.

(** A number above a positive finite double is not at most zero. *)
Lemma above_positive_not_le_zero (m : positive) (e : Z) (y : spec_float) :
  SFleb (S754_finite false m e) y = true -> SFleb y (F64.of_Z 0) = false.
Proof.
  destruct y as [sy|sy| |sy my ey]; try discriminate;
    destruct sy; try discriminate; reflexivity.
Qed.

Lemma math_max_one (typed : F64.float) :
  (F64.is_nan typed = true -> math_max #1 typed = S754_nan) /\
  (SFleb #1 typed = true -> math_max #1 typed = typed) /\
  (SFltb typed #1 = true -> math_max #1 typed = #1) /\
  (SFleb #1 (math_max #1 typed) = true \/ math_max #1 typed = S754_nan).
Proof.
  change (#1 : F64.float) with (S754_finite false 4503599627370496 (-52)).
  set (one := S754_finite false 4503599627370496 (-52)).
  assert (Hle : SFleb #1 typed = true -> math_max one typed = typed).
  { change (#1 : F64.float) with one. unfold SFleb, math_max, SFltb.
    destruct (SFcompare one typed) as [[]|] eqn:E; try discriminate; intros _.
    - apply SFcompare_eq_finite in E. subst typed. reflexivity.
    - destruct typed; try discriminate E; reflexivity. }
  change (#1 : F64.float) with one in Hle.
  split; [|split; [exact Hle|split]].
  - destruct typed; simpl; try discriminate. intros _. reflexivity.
  - intros Hlt. pose proof (SFltb_not_swapped _ _ Hlt) as Hsw.
    unfold math_max. rewrite Hsw. destruct typed; try reflexivity.
    discriminate Hlt.
  - unfold math_max.
    destruct (F64.is_nan one || F64.is_nan typed); [right; reflexivity|].
    destruct (SFltb one typed) eqn:E.
    + left. unfold SFltb in E. unfold SFleb.
      destruct (SFcompare one typed) as [[]|]; try discriminate E. reflexivity.
    + left. destruct typed; reflexivity.
Qed.

Lemma math_max_zero (typed : F64.float) :
  (F64.is_nan typed = true -> math_max #0 typed = S754_nan) /\
  (SFltb #0 typed = true -> math_max #0 typed = typed) /\
  (SFleb typed #0 = true -> math_max #0 typed = #0) /\
  SFltb (math_max #0 typed) #0 = false.
Proof.
  change (#0 : F64.float) with (S754_zero false).
  repeat split.
  - destruct typed; simpl; try discriminate. intros _. reflexivity.
  - intros Hlt. unfold math_max. rewrite Hlt.
    destruct typed; try discriminate Hlt; reflexivity.
  - intros Hle. destruct typed as [s|s| |s m e]; try discriminate Hle;
      destruct s; try discriminate Hle; reflexivity.
  - destruct typed as [s|s| |s m e]; try destruct s; reflexivity.
Qed.

Lemma at_least_one_not_le_zero (d : F64.float) :
  SFleb #1 d = true \/ d = S754_nan -> (d <=? #0) = false.
Proof.
  intros [Hle| ->]; [|reflexivity].
  apply (above_positive_not_le_zero 4503599627370496 (-52)). exact Hle.
Qed.

(** X1.  The duration handler stores [Math.max(1, typed)]: the typed
    number when it is at least 1, the number 1 when it is below 1, [NaN]
    when it is [NaN]; whatever was typed, the stored duration does not
    satisfy [experimentDays <= 0], and the other cells are untouched. *)
Theorem days_input_clamped (typed : F64.float) (s : state F64.float) :
  let s' := onChange DaysInput typed s in
  (experimentDays s' <=? #0) = false /\
  (SFleb #1 typed = true -> experimentDays s' = typed) /\
  (SFltb typed #1 = true -> experimentDays s' = #1) /\
  (F64.is_nan typed = true -> experimentDays s' = S754_nan) /\
  controlRevenue s' = controlRevenue s /\
  variantRevenue s' = variantRevenue s /\
  chartData s' = chartData s /\
  annualProjection s' = annualProjection s.
Proof.
  destruct (math_max_one typed) as (Hnan & Hge & Hlt & Hinv).
  cbv zeta. cbn [onChange experimentDays controlRevenue variantRevenue
                 chartData annualProjection].
  split; [apply at_least_one_not_le_zero, Hinv|]. repeat split; assumption.
Qed.

(** Typing 0, then typing 30, into the duration field. *)
Lemma days_input_clamped_witness :
  experimentDays (onChange DaysInput (F64.of_Z 0) initialState) = F64.of_Z 1 /\
  experimentDays (onChange DaysInput (F64.of_Z 30) initialState) = F64.of_Z 30.
Proof.
  split.
  - destruct (days_input_clamped (F64.of_Z 0) initialState)
      as (_ & _ & Hlt & _). apply Hlt. vm_compute. reflexivity.
  - destruct (days_input_clamped (F64.of_Z 30) initialState)
      as (_ & Hge & _). apply Hge. vm_compute. reflexivity.
Defined.

(** X2.  Each revenue handler stores [Math.max(0, typed)]: the typed
    number when it is positive, [+0] when it is zero (of either sign) or
    negative, [NaN] when it is [NaN]; the stored revenue is never below
    zero, and the duration and the other revenue are untouched. *)
Theorem revenue_input_clamped (typed : F64.float) (s : state F64.float) :
  let sc := onChange ControlInput typed s in
  let sv := onChange VariantInput typed s in
  controlRevenue sc = variantRevenue sv /\
  SFltb (controlRevenue sc) #0 = false /\
  (SFltb #0 typed = true -> controlRevenue sc = typed) /\
  (SFleb typed #0 = true -> controlRevenue sc = S754_zero false) /\
  (F64.is_nan typed = true -> controlRevenue sc = S754_nan) /\
  experimentDays sc = experimentDays s /\ variantRevenue sc = variantRevenue s /\
  experimentDays sv = experimentDays s /\ controlRevenue sv = controlRevenue s.
Proof.
  destruct (math_max_zero typed) as (Hnan & Hgt & Hle & Hinv).
  cbv zeta. cbn [onChange experimentDays controlRevenue variantRevenue].
  repeat split; assumption.
Qed.

(** Typing -250, then typing 1500, into the control revenue field. *)
Lemma revenue_input_clamped_witness :
  controlRevenue (onChange ControlInput (F64.of_Z (-250)) initialState)
    = F64.of_Z 0 /\
  controlRevenue (onChange ControlInput (F64.of_Z 1500) initialState)
    = F64.of_Z 1500.
Proof.
  split.
  - destruct (revenue_input_clamped (F64.of_Z (-250)) initialState)
      as (_ & _ & _ & Hle & _). apply Hle. vm_compute. reflexivity.
  - destruct (revenue_input_clamped (F64.of_Z 1500) initialState)
      as (_ & _ & Hgt & _). apply Hgt. vm_compute. reflexivity.
Defined.

(** ** The render cycle *)

Lemma mount_settled (fuel : nat) :
  (14 <= fuel)%nat ->
  mount fuel = Some (recomputed initialState) /\ settled (recomputed initialState).
Proof.
  intros Hfuel. split.
  - apply projectionEffect_runs; [reflexivity | exact Hfuel].
  - repeat split. left. reflexivity.
Qed.

Lemma afterChange_settled (fuel : nat) (i : input) (typed : F64.float)
    (s : state F64.float) :
  (14 <= fuel)%nat -> settled s ->
  exists s', afterChange fuel i typed s = Some s' /\ settled s'.
Proof.
  intros Hfuel (Hrec & Hd & Hc & Hv). unfold afterChange. cbv zeta.
  destruct (depsChanged s (onChange i typed s)).
  - assert (Hinv : (SFleb #1 (experimentDays (onChange i typed s)) = true \/
                    experimentDays (onChange i typed s) = S754_nan) /\
                   SFltb (controlRevenue (onChange i typed s)) #0 = false /\
                   SFltb (variantRevenue (onChange i typed s)) #0 = false).
    { destruct i; cbn [onChange experimentDays controlRevenue variantRevenue];
        repeat split; try assumption;
        first [ apply math_max_one | apply math_max_zero ]. }
    destruct Hinv as (Hd' & Hc' & Hv').
    exists (recomputed (onChange i typed s)). split.
    + apply projectionEffect_runs; [|exact Hfuel].
      apply at_least_one_not_le_zero, Hd'.
    + repeat split; assumption.
  - exists s. split; [reflexivity|]. repeat split; assumption.
Qed.

Lemma edits_settled (fuel : nat) (es : list (input * F64.float)) :
  (14 <= fuel)%nat ->
  forall s, settled s -> exists s', edits fuel es s = Some s' /\ settled s'.
Proof.
  intros Hfuel. induction es as [|[i typed] es IH]; intros s Hs; simpl.
  - exists s. auto.
  - destruct (afterChange_settled fuel i typed s Hfuel Hs) as (s1 & -> & Hs1).
    apply IH, Hs1.
Qed.

Lemma session_settled (fuel : nat) (es : list (input * F64.float)) :
  (14 <= fuel)%nat ->
  exists s, session fuel es = Some s /\ settled s.
Proof.
  intros Hfuel. unfold session.
  destruct (mount_settled fuel Hfuel) as [-> Hs0].
  apply edits_settled; assumption.
Qed.



(** X4.  In every state the component goes through, the duration is at
    least 1 or [NaN] and no revenue is below zero; so the test
    [experimentDays <= 0] at line 20 is false every time the effect runs
    in the component: the early return is never taken. *)
Theorem session_inputs_clamped (fuel : nat) (es : list (input * F64.float)) :
  (14 <= fuel)%nat ->
  exists s,
    session fuel es = Some s /\
    (SFleb #1 (experimentDays s) = true \/ experimentDays s = S754_nan) /\
    (experimentDays s <=? #0) = false /\
    SFltb (controlRevenue s) #0 = false /\
    SFltb (variantRevenue s) #0 = false.
Proof.
  intros Hfuel.
  destruct (session_settled fuel es Hfuel) as (s & Hrun & _ & Hd & Hc & Hv).
  exists s. split; [exact Hrun|]. split; [exact Hd|].
  split; [apply at_least_one_not_le_zero, Hd|]. split; assumption.
Qed.

(** Duration -5, control revenue -1, variant revenue -2. *)
Lemma session_inputs_clamped_witness :
  exists s,
    session 14 [(DaysInput, F64.of_Z (-5)); (ControlInput, F64.of_Z (-1));
                (VariantInput, F64.of_Z (-2))] = Some s /\
    experimentDays s = F64.of_Z 1 /\
    controlRevenue s = F64.of_Z 0 /\ variantRevenue s = F64.of_Z 0.
Proof.
  destruct (session_inputs_clamped 14
              [(DaysInput, F64.of_Z (-5)); (ControlInput, F64.of_Z (-1));
               (VariantInput, F64.of_Z (-2))])
    as (s & Hrun & _); [lia|].
  exists s. split; [exact Hrun|].
  vm_compute in Hrun. injection Hrun as <-. repeat split.
Defined.

(** ** The effect as a function of the inputs *)

(** X5.  Running the effect a second time changes nothing: the state it
    produces is a fixed point, because the effect reads only the three
    inputs and never writes them.  This holds in any arithmetic. *)
Theorem projectionEffect_idempotent {num : Type} `{JsArith num}
    (fuel : nat) (s s' : state num) :
  projectionEffect fuel s = Some s' ->
  projectionEffect fuel s' = Some s' /\
  experimentDays s' = experimentDays s /\
  controlRevenue s' = controlRevenue s /\
  variantRevenue s' = variantRevenue s.
Proof.
  unfold projectionEffect.
  destruct (experimentDays s <=? #0) eqn:Hd.
  - intros [= <-]. rewrite Hd. repeat split.
  - cbv zeta.
    destruct (chartLoop fuel _ #0 []) as [data|] eqn:Hloop; [|discriminate].
    intros [= <-]. cbn [experimentDays controlRevenue variantRevenue].
    rewrite Hd, Hloop. repeat split.
Qed.

(** The state left by the first run on the default inputs. *)
Lemma projectionEffect_idempotent_witness :
  projectionEffect 14 (recomputed initialState) = Some (recomputed initialState).
Proof.
  destruct (@projectionEffect_idempotent _ _ 14 initialState (recomputed initialState))
    as [Hrun _].
  - apply projectionEffect_runs; [reflexivity | lia].
  - exact Hrun.
Defined.

(** X6.  A [NaN] duration is not caught by the guard at line 20
    ([NaN <= 0] is false): the effect runs to its end, the four figures
    of the projection are [NaN], every projected value of the series is
    [NaN], and the efficacy column is the usual one. *)
Theorem nan_duration_not_skipped (fuel : nat) (s : state F64.float) :
  experimentDays s = S754_nan -> (14 <= fuel)%nat ->
  exists s',
    projectionEffect fuel s = Some s' /\
    rawValue (annualProjection s') = S754_nan /\
    afterNovelty (annualProjection s') = S754_nan /\
    lowerRange (annualProjection s') = S754_nan /\
    upperRange (annualProjection s') = S754_nan /\
    length (chartData s') = 13%nat /\
    (forall smp, In smp (chartData s') -> projectedValue smp = S754_nan) /\
    map efficacy (chartData s') = map efficacyPercentage monthIndices.
Proof.
  intros Hd Hfuel. exists (recomputed s).
  split; [apply projectionEffect_runs; [rewrite Hd; reflexivity | exact Hfuel]|].
  assert (Hraw : rawValue (annualProjection (recomputed s)) = S754_nan).
  { unfold recomputed, computeProjection. cbn [annualProjection rawValue].
    rewrite Hd. cbn [num_div num_mul F64.arith].
    destruct (variantRevenue s - controlRevenue s); reflexivity. }
  unfold recomputed in *. cbn [annualProjection chartData] in *.
  unfold computeProjection in *.
  cbn [rawValue afterNovelty lowerRange upperRange] in *.
  rewrite Hraw.
  split; [reflexivity|]. split; [reflexivity|]. split; [reflexivity|].
  split; [reflexivity|]. split; [reflexivity|]. split.
  - intros smp Hin. apply in_map_iff in Hin as (m & <- & _). reflexivity.
  - rewrite map_map. reflexivity.
Qed.

Lemma nan_duration_not_skipped_witness :
  exists s',
    projectionEffect 14 (inputState S754_nan (F64.of_Z 1000) (F64.of_Z 1200))
      = Some s' /\
    rawValue (annualProjection s') = S754_nan.
Proof.
  destruct (nan_duration_not_skipped 14
              (inputState S754_nan (F64.of_Z 1000) (F64.of_Z 1200)))
    as (s' & Hrun & Hraw & _); [reflexivity | lia |].
  exists s'. split; assumption.
Defined.

(** ** Labels of the month axis *)

Lemma SFeqb_finite (s : bool) (m : positive) (e : Z) (x : spec_float) :
  SFeqb x (S754_finite s m e) = true <-> x = S754_finite s m e.
Proof.
  unfold SFeqb. split.
  - intros H. apply SFcompare_eq_finite.
    rewrite (SFcompare_antisym x (S754_finite s m e)).
    destruct (SFcompare x (S754_finite s m e)) as [[]|]; try discriminate H.
    reflexivity.
  - intros ->. unfold SFcompare. destruct s; rewrite Z.compare_refl;
      change (Pos.compare_cont Eq m m) with (m ?= m)%positive;
      rewrite Pos.compare_refl; reflexivity.
Qed.

(** X7.  The labels of the month axis: a zero of either sign is shown as
    "Start", the double 12 and no other as "Year End", and every other
    number ([NaN] included) as itself.  On the months of the series the
    loop produces, whatever the raw value, the labels are "Start", the
    numbers 1 to 11, and "Year End". *)
Theorem tick_labels (fuel : nat) (raw : F64.float) :
  (14 <= fuel)%nat ->
  (forall value,
     (tickFormatter value = TickText "Start"%string <-> is_zero value = true) /\
     (tickFormatter value = TickText "Year End"%string <-> value = F64.of_Z 12) /\
     (is_zero value = false -> value <> F64.of_Z 12 ->
      tickFormatter value = TickNumber value)) /\
  exists data,
    chartLoop fuel raw #0 [] = Some data /\
    map (fun smp => tickFormatter (month smp)) data =
      TickText "Start"%string
        :: map (fun k => TickNumber (F64.of_Z (Z.of_nat k))) (seq 1 11)
        ++ [TickText "Year End"%string].
Proof.
  intros Hfuel. split.
  - intros value. unfold tickFormatter.
    change (#12 : F64.float) with (S754_finite false 6755399441055744 (-49)).
    change (F64.of_Z 12) with (S754_finite false 6755399441055744 (-49)).
    pose proof (SFeqb_finite false 6755399441055744 (-49) value) as H12.
    destruct value as [s|s| |s m e].
    1-3: try destruct s; repeat split; intros; try discriminate;
         try reflexivity; try congruence.
    assert (H0 : SFeqb (S754_finite s m e) #0 = false) by (destruct s; reflexivity).
    rewrite H0. cbn [is_zero].
    destruct (SFeqb (S754_finite s m e) (S754_finite false 6755399441055744 (-49)))
      eqn:E.
    + destruct H12 as [H12 _]. specialize (H12 eq_refl).
      repeat split; intros; try discriminate; try congruence.
    + destruct H12 as [_ H12].
      repeat split; intros; try discriminate; try reflexivity.
      apply H12 in H. discriminate H.
  - eexists. split; [apply chartLoop_f64, Hfuel|].
    rewrite map_map. vm_compute. reflexivity.
Qed.

Lemma tick_labels_witness :
  tickFormatter (S754_zero true) = TickText "Start"%string /\
  tickFormatter (F64.of_Z 6) = TickNumber (F64.of_Z 6).
Proof.
  destruct (tick_labels 14 (F64.of_Z 0)) as [Hall _]; [lia|]. split.
  - apply (Hall (S754_zero true)). reflexivity.
  - apply (Hall (F64.of_Z 6)); [reflexivity | vm_compute; discriminate].
Defined.

(** ** The sign of the projection *)

Lemma signed_false_nonneg (x : spec_float) :
  signed false x -> SFleb (F64.of_Z 0) x = true.
Proof.
  destruct x as [s|s| |s m e]; simpl.
  - destruct s; reflexivity.
  - intros ->. reflexivity.
  - contradiction.
  - intros [-> _]. reflexivity.
Qed.

Lemma signed_true_nonpos (x : spec_float) :
  signed true x -> SFleb x (F64.of_Z 0) = true.
Proof.
  destruct x as [s|s| |s m e]; simpl.
  - destruct s; reflexivity.
  - intros ->. reflexivity.
  - contradiction.
  - intros [-> _]. reflexivity.
Qed.

(** Every figure derived from a difference of sign [sx]. *)
Lemma figures_signed (sx : bool) (diff : spec_float) (md : positive) (ed : Z) :
  signed sx diff ->
  let p := diff / S754_finite false md ed * F64.of_Z 365 in
  signed sx p /\
  signed sx (p * F64.of_dec 75 100) /\
  signed sx (p * F64.of_dec 75 100 * F64.of_dec 7 10) /\
  forall m, In m monthIndices ->
    signed sx (projectedValue (chartPoint p m)).
Proof.
  intros Hdiff p.
  assert (Hp : signed sx p).
  { unfold p. change (F64.of_Z 365) with (S754_finite false 6421147906211840 (-44)).
    cbn [num_mul num_div F64.arith].
    apply SFmul_signed; [|reflexivity]. apply SFdiv_signed, Hdiff. }
  assert (Ha : signed sx (p * F64.of_dec 75 100)).
  { change (F64.of_dec 75 100) with (S754_finite false 6755399441055744 (-53)).
    cbn [num_mul F64.arith]. apply SFmul_signed; [exact Hp | reflexivity]. }
  split; [exact Hp|]. split; [exact Ha|]. split.
  - change (F64.of_dec 7 10) with (S754_finite false 6305039478318694 (-53)).
    cbn [num_mul F64.arith]. apply SFmul_signed; [exact Ha | reflexivity].
  - clearbody p. intros m Hm.
    assert (Hshare : signed sx (p / #12)).
    { change (#12 : F64.float) with (S754_finite false 6755399441055744 (-49)).
      cbn [num_div F64.arith]. apply SFdiv_signed, Hp. }
    unfold chartPoint, monthlyValue. cbn [projectedValue].
    set (share := p / #12) in *. clearbody share.
    vm_compute in Hm.
    repeat (destruct Hm as [<-|Hm];
            [ match goal with
              | |- signed _ (_ * ?k) =>
                  let k' := eval vm_compute in k in change k with k'
              end;
              cbn [num_mul F64.arith]; apply SFmul_signed; [exact Hshare | reflexivity]
            | ]).
    destruct Hm.
Qed.

(** X8.  The sign of what is displayed follows the sign of the revenue
    difference.  For a positive real duration and real revenues that are
    not negative: when the variant revenue is at least the control
    revenue, the four figures of the projection and the thirteen
    projected values of the series are all at least zero; when it is at
    most the control revenue, they are all at most zero. *)
Theorem projection_sign (fuel : nat) (s : state F64.float) :
  F64.ltb #0 (experimentDays s) = true -> (14 <= fuel)%nat ->
  F64.is_real (experimentDays s) = true ->
  F64.valid (controlRevenue s) = true -> F64.is_real (controlRevenue s) = true ->
  F64.valid (variantRevenue s) = true -> F64.is_real (variantRevenue s) = true ->
  (#0 <=? controlRevenue s) = true -> (#0 <=? variantRevenue s) = true ->
  exists s',
    projectionEffect fuel s = Some s' /\
    let p := annualProjection s' in
    ((controlRevenue s <=? variantRevenue s) = true ->
     (#0 <=? rawValue p) = true /\ (#0 <=? afterNovelty p) = true /\
     (#0 <=? lowerRange p) = true /\ (#0 <=? upperRange p) = true /\
     forall smp, In smp (chartData s') -> (#0 <=? projectedValue smp) = true) /\
    ((variantRevenue s <=? controlRevenue s) = true ->
     (rawValue p <=? #0) = true /\ (afterNovelty p <=? #0) = true /\
     (lowerRange p <=? #0) = true /\ (upperRange p <=? #0) = true /\
     forall smp, In smp (chartData s') -> (projectedValue smp <=? #0) = true).
Proof.
  intros Hd Hfuel Hrd Hvc Hrc Hvv Hrv H0c H0v. exists (recomputed s).
  split; [apply projectionEffect_runs; auto using positive_not_le_zero|].
  destruct (positive_real_finite _ Hrd Hd) as (md & ed & Hdays).
  unfold recomputed, computeProjection.
  cbn [annualProjection chartData rawValue afterNovelty lowerRange upperRange].
  rewrite Hdays. cbv zeta. split; intros Hord.
  - destruct (figures_signed false _ md ed
                (SFsub_nonneg _ _ Hvv Hvc Hrv Hrc H0c Hord)) as (Hp & Ha & Hl & Hs).
    repeat split; try (apply signed_false_nonneg; assumption).
    intros smp Hin. apply in_map_iff in Hin as (m & <- & Hm).
    apply signed_false_nonneg, Hs, Hm.
  - destruct (figures_signed true _ md ed
                (SFsub_nonpos _ _ Hvv Hvc Hrv Hrc H0v Hord)) as (Hp & Ha & Hl & Hs).
    repeat split; try (apply signed_true_nonpos; assumption).
    intros smp Hin. apply in_map_iff in Hin as (m & <- & Hm).
    apply signed_true_nonpos, Hs, Hm.
Qed.

(** The default inputs, and the two revenues swapped. *)
Lemma projection_sign_witness :
  (exists s',
     projectionEffect 14 (initialState (num := F64.float)) = Some s' /\
     (#0 <=? lowerRange (annualProjection s')) = true) /\
  (exists s',
     projectionEffect 14
       (inputState (F64.of_Z 14) (F64.of_Z 1200) (F64.of_Z 1000)) = Some s' /\
     (upperRange (annualProjection s') <=? #0) = true).
Proof.
  split.
  - destruct (projection_sign 14 initialState) as (s' & Hrun & Hwin & _);
      try lia; try (vm_compute; reflexivity).
    exists s'. split; [exact Hrun|].
    apply Hwin. vm_compute. reflexivity.
  - destruct (projection_sign 14
                (inputState (F64.of_Z 14) (F64.of_Z 1200) (F64.of_Z 1000)))
      as (s' & Hrun & _ & Hlose); try lia; try (vm_compute; reflexivity).
    exists s'. split; [exact Hrun|].
    apply Hlose. vm_compute. reflexivity.
Defined.
